(** * process_models.py: shading-graph synthesis and the per-asset pipeline

    A shallow embedding of [scripts/process_models.py], a Blender script
    that normalises imported meshes, rebuilds their material node trees,
    builds the world lighting tree and exports each asset.

    The script talks to the host through [bpy].  The part of the host that
    the script reads and writes is the record [Bpy] below: data-blocks
    (images, materials), the mesh objects of the scene each with its
    selection flag, the world tree, the files on disk, the operators the
    script has called, and what it printed.  Python exceptions are the
    [Raise] results of the monad [Py]; whatever was written before an
    exception stays written.

    Numbers the script stores (socket defaults, angles, light energies)
    are kept as the decimal constants of the source, in [Q]. *)

From Stdlib Require Import Ascii String QArith.
From stdpp Require Import gmap strings list fin_maps.

(* ===================================================================== *)
(** * Python strings *)
(* ===================================================================== *)

Module PyStr.

(** [str.lower] on the ASCII range: [A]..[Z] map to [a]..[z], every
    other character is kept. *)
Definition lower_char (c : ascii) : ascii :=
  let n := nat_of_ascii c in
  if (65 <=? n)%nat && (n <=? 90)%nat then ascii_of_nat (n + 32) else c.

Fixpoint lower (s : string) : string :=
  match s with
  | EmptyString => EmptyString
  | String c s' => String (lower_char c) (lower s')
  end.

(** [needle in hay]: the needle starts at some position of the hay. *)
Fixpoint contains (needle hay : string) : bool :=
  String.prefix needle hay ||
  match hay with
  | EmptyString => false
  | String _ hay' => contains needle hay'
  end.

(** [os.path.join a b] on POSIX: an absolute [b] replaces [a]. *)
Definition ends_with_sep (a : string) : bool :=
  match String.get (String.length a - 1) a with
  | Some c => Ascii.eqb c "/"%char
  | None => false
  end.

Definition path_join (a b : string) : string :=
  if String.prefix "/" b then b
  else if String.eqb a "" || ends_with_sep a then a +:+ b
  else a +:+ "/" +:+ b.

(** [s.replace(old, new)] for an [old] of one character: every occurrence
    is replaced, from left to right. *)
Fixpoint replace_char (old : ascii) (new : string) (s : string) : string :=
  match s with
  | EmptyString => EmptyString
  | String c s' =>
      if Ascii.eqb c old then new +:+ replace_char old new s'
      else String c (replace_char old new s')
  end.

End PyStr.

(* ===================================================================== *)
(** * Results and the state-and-exception monad *)
(* ===================================================================== *)

Inductive Exn : Type :=
| RuntimeError (msg : string)   (* raised by a failing [bpy] operator or loader *)
| OSError (path : string)        (* raised by [open] and [urlretrieve] *)
| ReferenceError (name : string) (* a data-block that is no longer there *)
| ValueError (msg : string)      (* a value of the wrong shape for a host property *)
| TypeError (msg : string)       (* a string that is no item of a host enum *)
| AttributeError (name : string). (* an attribute the host object does not have *)

Inductive Res (A : Type) : Type :=
| Ok (a : A)
| Raise (e : Exn).
Arguments Ok {A} a.
Arguments Raise {A} e.

(** A statement block over a state [S]: it returns or raises, and leaves a
    state behind in both cases. *)
Definition Py (S A : Type) : Type := S -> Res A * S.

Definition ret {S A} (a : A) : Py S A := fun s => (Ok a, s).

Definition bind {S A B} (c : Py S A) (k : A -> Py S B) : Py S B :=
  fun s =>
    match c s with
    | (Ok a, s') => k a s'
    | (Raise e, s') => (Raise e, s')
    end.

Definition raise {S A} (e : Exn) : Py S A := fun s => (Raise e, s).

(** [try: body  except: handler] with a bare [except] (or
    [except Exception]): every exception of the body reaches the handler. *)
Definition try_except {S A} (body : Py S A) (handler : Exn -> Py S A) : Py S A :=
  fun s =>
    match body s with
    | (Ok a, s') => (Ok a, s')
    | (Raise e, s') => handler e s'
    end.

Definition get {S} : Py S S := fun s => (Ok s, s).
Definition modify {S} (f : S -> S) : Py S unit := fun s => (Ok tt, f s).

Declare Scope py_scope.
Delimit Scope py_scope with py.
Notation "x <- c ;; k" := (bind c (fun x => k))
  (at level 100, c at next level, right associativity) : py_scope.
Notation "c ;; k" := (bind c (fun _ => k))
  (at level 100, right associativity) : py_scope.
Open Scope py_scope.

(** [for x in xs: body x]; an exception leaves the loop. *)
Fixpoint for_each {S A} (xs : list A) (body : A -> Py S unit) : Py S unit :=
  match xs with
  | [] => ret tt
  | x :: xs' => body x ;; for_each xs' body
  end.

(** Run a block on one component of a pair, leaving the other alone. *)
Definition lift {T S A} (c : Py S A) : Py (T * S) A :=
  fun ts =>
    match c (snd ts) with
    | (r, s') => (r, (fst ts, s'))
    end.

Definition on_tree {T S A} (f : T -> A * T) : Py (T * S) A :=
  fun ts =>
    match f (fst ts) with
    | (a, t') => (Ok a, (t', snd ts))
    end.

(* ===================================================================== *)
(** * The host state *)
(* ===================================================================== *)

Definition V3 : Type := Q * Q * Q.

(** An input or output of a node, addressed by name ([inputs["Color"]]) or
    by position ([inputs[0]]). *)
Inductive Socket : Type :=
| SName (name : string)
| SIdx (i : nat).

Global Instance Socket_eq_dec : EqDecision Socket.
Proof. solve_decision. Defined.

Global Program Instance Socket_countable : Countable Socket :=
  inj_countable'
    (fun k => match k with SName n => inl n | SIdx i => inr i end)
    (fun x => match x with inl n => SName n | inr i => SIdx i end) _.
Next Obligation. by intros []. Qed.

Inductive NodeType : Type :=
| ShaderNodeBsdfPrincipled
| ShaderNodeOutputMaterial
| ShaderNodeTexCoord
| ShaderNodeMapping
| ShaderNodeTexImage
| ShaderNodeNormalMap
| ShaderNodeTexEnvironment
| ShaderNodeBackground
| ShaderNodeMixShader
| ShaderNodeAmbientOcclusion
| ShaderNodeOutputWorld.

Global Instance NodeType_eq_dec : EqDecision NodeType.
Proof. solve_decision. Defined.

(** A node with the attributes the script writes.  [default_values] holds
    the [default_value] of the input sockets the script has assigned; a
    socket that is not in the map still has the value the host gave it. *)
Record Node : Type := mkNode {
  bl_idname : NodeType;
  image : option nat;                 (* index into [bpy.data.images] *)
  node_location : Z * Z;
  vector_type : option string;
  color : option (Q * Q * Q);         (* [node.color], three components *)
  default_values : gmap Socket Q
}.

(** A node is named by its position in [nodes]. *)
Record Link : Type := mkLink {
  from_node : nat;
  from_socket : Socket;
  to_node : nat;
  to_socket : Socket
}.

Global Instance Link_eq_dec : EqDecision Link.
Proof. solve_decision. Defined.

Record NodeTree : Type := mkTree {
  nodes : list Node;
  links : list Link
}.

Record Image : Type := mkImage {
  filepath : string;
  colorspace : string                 (* [colorspace_settings.name] *)
}.

Record Material : Type := mkMaterial {
  use_nodes : bool;
  node_tree : NodeTree
}.

(** A mesh object of the scene.  [polygons] is [len(obj.data.polygons)];
    [bounds_center] is the point the host moves the origin to when
    [origin_set] reaches the object (the centre of its bounding box, which
    the host computes from geometry the script never reads). *)
Record Object : Type := mkObject {
  obj_name : string;
  scale : V3;
  rotation_euler : V3;
  location : V3;
  selected : bool;
  editing : bool;                     (* the mesh is open in edit mode *)
  polygons : nat;
  shaded_smooth : bool;
  use_auto_smooth : bool;
  auto_smooth_angle : Q;
  normals_outward : bool;
  bounds_center : V3;
  material_slots : list (option string)   (* [slot.material], by name *)
}.

(** What a path holds on disk. *)
Inductive File : Type :=
| ImageFile                           (* decodes as an image *)
| GlbFile (meshes : list Object) (mats : gmap string Material)
| HtmlFile (model_name : string)      (* a generated viewer page *)
| OtherFile.                          (* exists, decodes as none of these *)

Record Light : Type := mkLight {
  light_name : string;
  light_type : string;
  energy : Q;
  light_size : option Q;
  light_location : V3;
  light_rotation : V3;
  light_selected : bool
}.

(** Operators and exports the script invokes, in call order; each entry
    carries the active object at the time of the call.  The call of
    [process_materials] on an object is recorded in the same list. *)
Inductive Op : Type :=
| Op_select_all (action : string)
| Op_select_by_type (type : string)
| Op_delete
| Op_import_gltf (path : string)
| Op_transform_apply
| Op_origin_set
| Op_shade_smooth
| Op_mode_set (mode : string)
| Op_mesh_select_all
| Op_normals_make_consistent
| Op_camera_add
| Op_export_gltf (path : string)
| Call_process_materials.

Global Instance Op_eq_dec : EqDecision Op.
Proof. solve_decision. Defined.

Record Bpy : Type := mkBpy {
  files : gmap string File;           (* the disk, by absolute path *)
  read_only : gset string;            (* paths where writing fails *)
  offline : bool;                     (* the network is unreachable *)
  images : list Image;                (* [bpy.data.images] *)
  materials : gmap string Material;   (* [bpy.data.materials], by name *)
  objects : list Object;              (* the mesh objects of the scene *)
  active : option nat;                (* [view_layer.objects.active] *)
  lights : list Light;
  cameras : list (string * bool);     (* camera objects: name, selected *)
  world : option Material;            (* [scene.world] with its node tree *)
  calls : list (option nat * Op);
  stdout : list string
}.

(** Field updates of [Bpy]. *)
Definition with_files (f : gmap string File) (s : Bpy) : Bpy :=
  mkBpy f (read_only s) (offline s) (images s) (materials s) (objects s)
        (active s) (lights s) (cameras s) (world s) (calls s) (stdout s).
Definition with_images (i : list Image) (s : Bpy) : Bpy :=
  mkBpy (files s) (read_only s) (offline s) i (materials s) (objects s)
        (active s) (lights s) (cameras s) (world s) (calls s) (stdout s).
Definition with_materials (m : gmap string Material) (s : Bpy) : Bpy :=
  mkBpy (files s) (read_only s) (offline s) (images s) m (objects s)
        (active s) (lights s) (cameras s) (world s) (calls s) (stdout s).
Definition with_objects (o : list Object) (s : Bpy) : Bpy :=
  mkBpy (files s) (read_only s) (offline s) (images s) (materials s) o
        (active s) (lights s) (cameras s) (world s) (calls s) (stdout s).
Definition with_active (a : option nat) (s : Bpy) : Bpy :=
  mkBpy (files s) (read_only s) (offline s) (images s) (materials s) (objects s)
        a (lights s) (cameras s) (world s) (calls s) (stdout s).
Definition with_lights (l : list Light) (s : Bpy) : Bpy :=
  mkBpy (files s) (read_only s) (offline s) (images s) (materials s) (objects s)
        (active s) l (cameras s) (world s) (calls s) (stdout s).
Definition with_cameras (c : list (string * bool)) (s : Bpy) : Bpy :=
  mkBpy (files s) (read_only s) (offline s) (images s) (materials s) (objects s)
        (active s) (lights s) c (world s) (calls s) (stdout s).
Definition with_world (w : option Material) (s : Bpy) : Bpy :=
  mkBpy (files s) (read_only s) (offline s) (images s) (materials s) (objects s)
        (active s) (lights s) (cameras s) w (calls s) (stdout s).
Definition with_calls (c : list (option nat * Op)) (s : Bpy) : Bpy :=
  mkBpy (files s) (read_only s) (offline s) (images s) (materials s) (objects s)
        (active s) (lights s) (cameras s) (world s) c (stdout s).
Definition with_stdout (o : list string) (s : Bpy) : Bpy :=
  mkBpy (files s) (read_only s) (offline s) (images s) (materials s) (objects s)
        (active s) (lights s) (cameras s) (world s) (calls s) o.

(** [print(line)] *)
Definition print (line : string) : Py Bpy unit :=
  modify (fun s => with_stdout (stdout s ++ [line]) s).

(** [bpy.ops.<op>()]: the call is recorded with the active object. *)
Definition record (op : Op) : Py Bpy unit :=
  modify (fun s => with_calls (calls s ++ [(active s, op)]) s).

(** [os.path.exists(path)] *)
Definition os_path_exists (path : string) : Py Bpy bool :=
  fun s => (Ok (bool_decide (is_Some (files s !! path))), s).

(* ===================================================================== *)
(** * Node trees *)
(* ===================================================================== *)

Module Tree.

Definition empty : NodeTree := mkTree [] [].

Definition fresh (ty : NodeType) : Node :=
  mkNode ty None (0, 0)%Z None None ∅.

(** [for node in nodes: nodes.remove(node)]: every node goes, and a
    removed node takes its links with it. *)
Definition clear (t : NodeTree) : unit * NodeTree := (tt, empty).

(** [nodes.new(ty)]: the new node is last in [nodes]. *)
Definition new (ty : NodeType) (t : NodeTree) : nat * NodeTree :=
  (length (nodes t), mkTree (nodes t ++ [fresh ty]) (links t)).

Definition update (n : nat) (f : Node -> Node) (t : NodeTree) : unit * NodeTree :=
  (tt, mkTree (alter f n (nodes t)) (links t)).

Definition set_location (n : nat) (xy : Z * Z) : NodeTree -> unit * NodeTree :=
  update n (fun nd => mkNode (bl_idname nd) (image nd) xy (vector_type nd)
                             (color nd) (default_values nd)).

Definition set_image (n : nat) (img : option nat) : NodeTree -> unit * NodeTree :=
  update n (fun nd => mkNode (bl_idname nd) img (node_location nd) (vector_type nd)
                             (color nd) (default_values nd)).

Definition set_vector_type (n : nat) (vt : string) : NodeTree -> unit * NodeTree :=
  update n (fun nd => mkNode (bl_idname nd) (image nd) (node_location nd) (Some vt)
                             (color nd) (default_values nd)).

Definition set_color (n : nat) (c : Q * Q * Q) : NodeTree -> unit * NodeTree :=
  update n (fun nd => mkNode (bl_idname nd) (image nd) (node_location nd)
                             (vector_type nd) (Some c) (default_values nd)).

(** [node.inputs[k].default_value = v] *)
Definition set_default (n : nat) (k : Socket) (v : Q) : NodeTree -> unit * NodeTree :=
  update n (fun nd => mkNode (bl_idname nd) (image nd) (node_location nd)
                             (vector_type nd) (color nd)
                             (<[k := v]> (default_values nd))).

(** [links.new(a.outputs[i], b.inputs[j])]: an input socket takes one
    link, so a link already ending there is replaced. *)
Definition feeds (n : nat) (k : Socket) (l : Link) : bool :=
  bool_decide (to_node l = n ∧ to_socket l = k).

Definition link (a : nat) (i : Socket) (b : nat) (j : Socket)
    (t : NodeTree) : unit * NodeTree :=
  (tt, mkTree (nodes t)
              (filter (fun l => feeds b j l = false) (links t) ++ [mkLink a i b j])).

End Tree.

(** A block that builds a node tree runs on the tree and the host
    together: [nodes] and [links] of the source are handles on the tree
    component. *)
Definition Build (A : Type) : Type := Py (NodeTree * Bpy) A.

(** [mat.node_tree.nodes], [mat.node_tree.links]: run [body] on the tree
    of material [mat] and leave the result in the material. *)
Definition in_material {A} (mat : string) (body : Build A) : Py Bpy A :=
  fun s =>
    match materials s !! mat with
    | None => (Raise (ReferenceError mat), s)
    | Some m =>
        match body (node_tree m, s) with
        | (r, (t', s')) =>
            (r, with_materials
                  (alter (fun m' => mkMaterial (use_nodes m') t') mat (materials s')) s')
        end
    end.

(** [mat.use_nodes = True] *)
Definition set_use_nodes (mat : string) : Py Bpy unit :=
  modify (fun s =>
    with_materials (alter (fun m => mkMaterial true (node_tree m)) mat (materials s)) s).

(* ===================================================================== *)
(** * Texture loading (lines 140-161) *)
(* ===================================================================== *)

Definition PROJECT_ROOT : string :=
  "/Users/macbookair/Downloads/2ndAssessment/cevi_tech_assessment".
Definition SCRIPT_DIR : string := PyStr.path_join PROJECT_ROOT "scripts".
Definition MODELS_DIR : string := PyStr.path_join PROJECT_ROOT "models".
Definition TEXTURES_DIR : string := PyStr.path_join PROJECT_ROOT "textures".
Definition OUTPUT_DIR : string := PyStr.path_join PROJECT_ROOT "output".

(** The color space the host gives an image on load; both callers of
    [images_load] overwrite it before anything reads it. *)
Definition loaded_colorspace : string := "sRGB".

Definition find_image (path : string) (imgs : list Image) : option nat :=
  fst <$> list_find (fun im => filepath im = path) imgs.

(** [bpy.data.images.load(path, check_existing=...)]: with [check_existing]
    an image already loaded from [path] is returned as it is; otherwise the
    file is decoded into a new data-block, and a file that does not decode
    raises. *)
Definition images_load (path : string) (check_existing : bool) : Py Bpy nat :=
  fun s =>
    match (if check_existing then find_image path (images s) else None) with
    | Some i => (Ok i, s)
    | None =>
        match files s !! path with
        | Some ImageFile =>
            (Ok (length (images s)),
             with_images (images s ++ [mkImage path loaded_colorspace]) s)
        | _ => (Raise (RuntimeError ("Cannot read " +:+ path)), s)
        end
    end.

(** [img.colorspace_settings.name = cs] *)
Definition set_colorspace (img : nat) (cs : string) : Py Bpy unit :=
  modify (fun s =>
    with_images (alter (fun im => mkImage (filepath im) cs) img (images s)) s).

(** The tag both [load_texture] and [create_texture_node] write:
    ['sRGB' if color_space == 'sRGB' else 'Non-Color']. *)
Definition tag_of (color_space : string) : string :=
  if String.eqb color_space "sRGB" then "sRGB" else "Non-Color".

Definition load_texture (texture_name : string) (color_space : string)
    : Py Bpy (option nat) :=
  let texture_path := PyStr.path_join TEXTURES_DIR (texture_name +:+ ".png") in
  found <- os_path_exists texture_path ;;
  if found : bool then
    try_except
      (img <- images_load texture_path true ;;
       set_colorspace img (tag_of color_space) ;;
       ret (Some img))
      (fun _ =>
         print ("Warning: Could not load texture " +:+ texture_name) ;;
         ret None)
  else ret None.

Definition create_texture_node (img : option nat) (name : string)
    (location : Z * Z) (color_space : string) : Build (option nat) :=
  match img with
  | None => ret None
  | Some i =>
      tex_node <- on_tree (Tree.new ShaderNodeTexImage) ;;
      on_tree (Tree.set_image tex_node (Some i)) ;;
      on_tree (Tree.set_location tex_node location) ;;
      lift (set_colorspace i (tag_of color_space)) ;;
      ret (Some tex_node)
  end.

(* ===================================================================== *)
(** * Material processing (lines 163-251) *)
(* ===================================================================== *)

(** Python truth of an optional reference. *)
Definition truthy {A} (o : option A) : bool :=
  match o with Some _ => true | None => false end.

Definition new (ty : NodeType) : Build nat := on_tree (Tree.new ty).
Definition link (a : nat) (i : string) (b : nat) (j : string) : Build unit :=
  on_tree (Tree.link a (SName i) b (SName j)).
Definition set_default (n : nat) (k : string) (v : Q) : Build unit :=
  on_tree (Tree.set_default n (SName k) v).
Definition pass {S} : Py S unit := ret tt.

(** [node.color = c]: the host keeps three components for the color of a
    node, and the assignment of a sequence of another length raises. *)
Definition COLOR_LENGTH_ERROR : string :=
  "bpy_struct: item.attr = val: sequences of dimension 0 should contain 3 items".

Definition set_color (n : nat) (c : list Q) : Build unit :=
  match c with
  | [r; g; b] => on_tree (Tree.set_color n (r, g, b))
  | _ => raise (ValueError COLOR_LENGTH_ERROR)
  end.

(** The four images loaded at the top of [process_materials]. *)
Record Textures : Type := mkTextures {
  base_color_map : option nat;
  normal_map : option nat;
  roughness_map : option nat;
  metallic_map : option nat
}.

(** The slot loop's body from [nodes = mat.node_tree.nodes] to the link
    into the output node (lines 180-238, without line 198).  It returns
    the surface node [bsdf]. *)
Definition wire_material (tx : Textures) : Build nat :=
  (* Clear existing nodes *)
  on_tree Tree.clear ;;
  (* Create Principled BSDF shader and output *)
  bsdf <- new ShaderNodeBsdfPrincipled ;;
  output <- new ShaderNodeOutputMaterial ;;
  on_tree (Tree.set_location output (400, 0)%Z) ;;
  (* Default material settings *)
  set_default bsdf "Specular" 0.5 ;;
  set_default bsdf "Roughness" 0.7 ;;
  set_default bsdf "Metallic" 0.0 ;;
  (* Create texture coordinates and mapping *)
  tex_coord <- new ShaderNodeTexCoord ;;
  mapping <- new ShaderNodeMapping ;;
  on_tree (Tree.set_vector_type mapping "TEXTURE") ;;
  link tex_coord "UV" mapping "Vector" ;;
  (* Add base color texture if available *)
  (if truthy (base_color_map tx) then
     tex_color <- create_texture_node (base_color_map tx) "Base Color"
                    (-600, 300)%Z "sRGB" ;;
     match tex_color with
     | Some tex_color =>
         link mapping "Vector" tex_color "Vector" ;;
         link tex_color "Color" bsdf "Base Color"
     | None => pass
     end
   else pass) ;;
  (* Add normal map if available *)
  (if truthy (normal_map tx) then
     tex_normal <- create_texture_node (normal_map tx) "Normal"
                     (-600, 0)%Z "Non-Color" ;;
     match tex_normal with
     | Some tex_normal =>
         normal_map_node <- new ShaderNodeNormalMap ;;
         on_tree (Tree.set_location normal_map_node (-200, 0)%Z) ;;
         link mapping "Vector" tex_normal "Vector" ;;
         link tex_normal "Color" normal_map_node "Color" ;;
         link normal_map_node "Normal" bsdf "Normal"
     | None => pass
     end
   else pass) ;;
  (* Add roughness map if available *)
  (if truthy (roughness_map tx) then
     tex_roughness <- create_texture_node (roughness_map tx) "Roughness"
                        (-600, -200)%Z "Non-Color" ;;
     match tex_roughness with
     | Some tex_roughness =>
         link mapping "Vector" tex_roughness "Vector" ;;
         link tex_roughness "Color" bsdf "Roughness"
     | None => pass
     end
   else pass) ;;
  (* Add metallic map if available *)
  (if truthy (metallic_map tx) then
     tex_metallic <- create_texture_node (metallic_map tx) "Metallic"
                       (-600, -400)%Z "Non-Color" ;;
     match tex_metallic with
     | Some tex_metallic =>
         link mapping "Vector" tex_metallic "Vector" ;;
         link tex_metallic "Color" bsdf "Metallic"
     | None => pass
     end
   else pass) ;;
  (* Connect BSDF to output *)
  link bsdf "BSDF" output "Surface" ;;
  ret bsdf.

(** [# Adjust material settings based on material type] (lines 240-251),
    on the lower-cased material name. *)
Definition adjust_material_settings (bsdf : nat) (mat_name : string) : Build unit :=
  if PyStr.contains "gold" mat_name then
    set_default bsdf "Metallic" 1.0 ;;
    set_default bsdf "Roughness" 0.2
  else if PyStr.contains "silver" mat_name || PyStr.contains "metal" mat_name then
    set_default bsdf "Metallic" 1.0 ;;
    set_default bsdf "Roughness" 0.1
  else if PyStr.contains "diamond" mat_name || PyStr.contains "gem" mat_name then
    set_default bsdf "Metallic" 0.0 ;;
    set_default bsdf "Roughness" 0.02 ;;
    set_default bsdf "Transmission" 1.0 ;;
    set_default bsdf "IOR" 2.4
  else pass.

(** The body of the slot loop from [nodes = mat.node_tree.nodes] on (lines
    180-251) for the material named [mat]: the wiring, then the settings
    chosen by [mat_name = mat.name.lower()]. *)
Definition build_material (mat : string) (tx : Textures) : Build unit :=
  let mat_name := PyStr.lower mat in
  bsdf <- wire_material tx ;;
  adjust_material_settings bsdf mat_name.

(** One turn of [for slot in obj.material_slots]. *)
Definition process_slot (tx : Textures) (slot : option string) : Py Bpy unit :=
  match slot with
  | None => pass                       (* [if not mat: continue] *)
  | Some mat =>
      set_use_nodes mat ;;
      in_material mat (build_material mat tx)
  end.

Definition process_materials (obj : Object) : Py Bpy unit :=
  if bool_decide (material_slots obj = []) then ret tt
  else
    (* Load all available textures *)
    base_color_map <- load_texture "albedo" "sRGB" ;;
    normal_map <- load_texture "normal" "Non-Color" ;;
    roughness_map <- load_texture "roughness" "Non-Color" ;;
    metallic_map <- load_texture "metallic" "Non-Color" ;;
    for_each (material_slots obj)
      (process_slot (mkTextures base_color_map normal_map roughness_map metallic_map)).

(* ===================================================================== *)
(** * The world lighting tree (lines 47-137) *)
(* ===================================================================== *)

(** [world.node_tree.nodes], [world.node_tree.links]: run [body] on the
    tree of the scene's world. *)
Definition in_world {A} (body : Build A) : Py Bpy A :=
  fun s =>
    match world s with
    | None => (Raise (ReferenceError "World"), s)
    | Some w =>
        match body (node_tree w, s) with
        | (r, (t', s')) =>
            (r, with_world
                  (option_map (fun w' => mkMaterial (use_nodes w') t') (world s')) s')
        end
    end.

Definition HDRI_URL : string :=
  "https://dl.polyhaven.org/file/ph-assets/HDRIs/hdr/4k/studio_small_09_4k.hdr".

(** [urllib.request.urlretrieve(url, path)]: fails without a network and
    where the target cannot be written; otherwise the panorama is on disk. *)
Definition urlretrieve (url path : string) : Py Bpy unit :=
  fun s =>
    if offline s || bool_decide (path ∈ read_only s) then (Raise (OSError path), s)
    else (Ok tt, with_files (<[path := ImageFile]> (files s)) s).

Definition download_hdri : Py Bpy string :=
  let hdri_url := HDRI_URL in
  let hdri_path := PyStr.path_join TEXTURES_DIR "studio_small_09.hdr" in
  found <- os_path_exists hdri_path ;;
  (if negb found then
     print ("Downloading HDRI from " +:+ hdri_url +:+ "...") ;;
     urlretrieve hdri_url hdri_path
   else pass) ;;
  ret hdri_path.

(** The body of [setup_hdri] from [nodes = world.node_tree.nodes] to the
    last link (lines 69-123). *)
Definition build_world (hdri_path : string) : Build unit :=
  (* Clear existing nodes *)
  on_tree Tree.clear ;;
  (* Create environment texture node *)
  env_tex <- new ShaderNodeTexEnvironment ;;
  try_except
    (img <- lift (images_load hdri_path false) ;;
     on_tree (Tree.set_image env_tex (Some img)) ;;
     lift (set_colorspace img "Filmic sRGB"))
    (fun _ =>
       lift (print ("Warning: Could not load HDRI from " +:+ hdri_path)) ;;
       (* Fallback to neutral gray *)
       on_tree (Tree.set_image env_tex None) ;;
       set_color env_tex [0.05; 0.05; 0.05; 1.0]%Q) ;;
  on_tree (Tree.set_location env_tex (-600, 200)%Z) ;;
  (* Create background node *)
  background <- new ShaderNodeBackground ;;
  on_tree (Tree.set_location background (-300, 200)%Z) ;;
  set_default background "Strength" 1.0 ;;
  (* Add environment map node for better reflections *)
  env_mapping <- new ShaderNodeMapping ;;
  on_tree (Tree.set_location env_mapping (-800, 200)%Z) ;;
  on_tree (Tree.set_vector_type env_mapping "TEXTURE") ;;
  tex_coord <- new ShaderNodeTexCoord ;;
  on_tree (Tree.set_location tex_coord (-1000, 200)%Z) ;;
  (* Connect nodes *)
  link tex_coord "Generated" env_mapping "Vector" ;;
  link env_mapping "Vector" env_tex "Vector" ;;
  link env_tex "Color" background "Color" ;;
  (* Add mix shader for better environment control *)
  mix_shader <- new ShaderNodeMixShader ;;
  on_tree (Tree.set_location mix_shader (0, 200)%Z) ;;
  on_tree (Tree.set_default mix_shader (SIdx 0) 1.0) ;;
  (* Create a simple ambient occlusion node *)
  ao <- new ShaderNodeAmbientOcclusion ;;
  on_tree (Tree.set_location ao (-300, 0)%Z) ;;
  (* Create output node *)
  output <- new ShaderNodeOutputWorld ;;
  on_tree (Tree.set_location output (300, 200)%Z) ;;
  (* Final node connections *)
  on_tree (Tree.link background (SName "Background") mix_shader (SIdx 1)) ;;
  on_tree (Tree.link ao (SName "Color") mix_shader (SIdx 2)) ;;
  on_tree (Tree.link mix_shader (SIdx 0) output (SName "Surface")).

(** [obj.attr = value] on a host object whose attributes the script writes
    and never reads: the host keeps the value and the state does not show
    it; an attribute the object does not have raises.  The host is the one
    the script is written for, where a mesh has [use_auto_smooth], the
    surface node has the inputs the script names and a world has
    [cycles_visibility]. *)
Definition setattr (attributes : list string) (attr : string) : Py Bpy unit :=
  if bool_decide (attr ∈ attributes) then pass else raise (AttributeError attr).

(** The same for an attribute that takes one of the items of an enum: a
    string that is no item raises. *)
Definition setattr_enum (attributes : list string) (attr : string)
    (items : list string) (value : string) : Py Bpy unit :=
  setattr attributes attr ;;
  if bool_decide (value ∈ items) then pass
  else raise (TypeError ("enum " +:+ value +:+ " not found")).

(** The attributes of [world.cycles_visibility]. *)
Definition CYCLES_VISIBILITY : list string :=
  ["camera"; "diffuse"; "glossy"; "transmission"; "scatter"; "shadow"].

(** The attributes of [scene.display.shading] and the items of its two
    enums; the studio lights are those the host ships with. *)
Definition SHADING : list string :=
  ["type"; "light"; "studio_light"; "studiolight_rotate_z"; "studiolight_intensity";
   "studiolight_background_alpha"; "studiolight_background_blur";
   "use_world_space_lighting"; "use_scene_lights"; "use_scene_world";
   "color_type"; "show_shadows"; "show_cavity"; "show_object_outline"].
Definition SHADING_LIGHT : list string := ["STUDIO"; "MATCAP"; "FLAT"].
Definition SHADING_STUDIO_LIGHT : list string :=
  ["Default"; "basic.sl"; "outdoor.sl"; "paint.sl"; "rim.sl"; "studio.sl"].

Definition setup_hdri (hdri_path : string) : Py Bpy unit :=
  (* Set up world environment *)
  s <- get ;;
  (if truthy (world s) then pass
   else modify (with_world (Some (mkMaterial false Tree.empty)))) ;;
  (* Use nodes for world shader *)
  modify (fun s => with_world
            (option_map (fun w => mkMaterial true (node_tree w)) (world s)) s) ;;
  in_world (build_world hdri_path) ;;
  (* Set world settings *)
  setattr CYCLES_VISIBILITY "camera" ;;
  setattr CYCLES_VISIBILITY "diffuse" ;;
  setattr CYCLES_VISIBILITY "glossy" ;;
  setattr CYCLES_VISIBILITY "transmission" ;;
  setattr CYCLES_VISIBILITY "scatter" ;;
  (* Set viewport display settings *)
  setattr_enum SHADING "light" SHADING_LIGHT "STUDIO" ;;
  setattr_enum SHADING "studio_light" SHADING_STUDIO_LIGHT "STUDIO" ;;
  setattr SHADING "use_scene_lights" ;;
  setattr SHADING "use_scene_world" ;;
  setattr SHADING "studio_light_background_alpha".

(* ===================================================================== *)
(** * Objects and operators *)
(* ===================================================================== *)

Definition set_scale (v : V3) (o : Object) : Object :=
  mkObject (obj_name o) v (rotation_euler o) (location o) (selected o) (editing o)
           (polygons o) (shaded_smooth o) (use_auto_smooth o) (auto_smooth_angle o)
           (normals_outward o) (bounds_center o) (material_slots o).
Definition set_rotation_euler (v : V3) (o : Object) : Object :=
  mkObject (obj_name o) (scale o) v (location o) (selected o) (editing o)
           (polygons o) (shaded_smooth o) (use_auto_smooth o) (auto_smooth_angle o)
           (normals_outward o) (bounds_center o) (material_slots o).
Definition set_location (v : V3) (o : Object) : Object :=
  mkObject (obj_name o) (scale o) (rotation_euler o) v (selected o) (editing o)
           (polygons o) (shaded_smooth o) (use_auto_smooth o) (auto_smooth_angle o)
           (normals_outward o) (bounds_center o) (material_slots o).
Definition select_set (b : bool) (o : Object) : Object :=
  mkObject (obj_name o) (scale o) (rotation_euler o) (location o) b (editing o)
           (polygons o) (shaded_smooth o) (use_auto_smooth o) (auto_smooth_angle o)
           (normals_outward o) (bounds_center o) (material_slots o).
Definition set_editing (b : bool) (o : Object) : Object :=
  mkObject (obj_name o) (scale o) (rotation_euler o) (location o) (selected o) b
           (polygons o) (shaded_smooth o) (use_auto_smooth o) (auto_smooth_angle o)
           (normals_outward o) (bounds_center o) (material_slots o).
Definition set_shaded_smooth (b : bool) (o : Object) : Object :=
  mkObject (obj_name o) (scale o) (rotation_euler o) (location o) (selected o) (editing o)
           (polygons o) b (use_auto_smooth o) (auto_smooth_angle o)
           (normals_outward o) (bounds_center o) (material_slots o).
Definition set_use_auto_smooth (b : bool) (o : Object) : Object :=
  mkObject (obj_name o) (scale o) (rotation_euler o) (location o) (selected o) (editing o)
           (polygons o) (shaded_smooth o) b (auto_smooth_angle o)
           (normals_outward o) (bounds_center o) (material_slots o).
Definition set_auto_smooth_angle (a : Q) (o : Object) : Object :=
  mkObject (obj_name o) (scale o) (rotation_euler o) (location o) (selected o) (editing o)
           (polygons o) (shaded_smooth o) (use_auto_smooth o) a
           (normals_outward o) (bounds_center o) (material_slots o).
Definition set_normals_outward (b : bool) (o : Object) : Object :=
  mkObject (obj_name o) (scale o) (rotation_euler o) (location o) (selected o) (editing o)
           (polygons o) (shaded_smooth o) (use_auto_smooth o) (auto_smooth_angle o)
           b (bounds_center o) (material_slots o).

Definition set_light_selected (b : bool) (l : Light) : Light :=
  mkLight (light_name l) (light_type l) (energy l) (light_size l)
          (light_location l) (light_rotation l) b.

(** [obj.<attribute> = value] on the object at position [i]. *)
Definition update_object (i : nat) (f : Object -> Object) : Py Bpy unit :=
  modify (fun s => with_objects (alter f i (objects s)) s).

(** An object operator works on every selected object. *)
Definition when_selected (f : Object -> Object) (o : Object) : Object :=
  if selected o then f o else o.

Definition on_selected (f : Object -> Object) : Py Bpy unit :=
  modify (fun s => with_objects (when_selected f <$> objects s) s).

Module Ops.

(** [bpy.ops.object.select_all(action='DESELECT')] *)
Definition select_all_deselect : Py Bpy unit :=
  record (Op_select_all "DESELECT") ;;
  modify (fun s =>
    with_cameras ((fun c => (fst c, false)) <$> cameras s)
      (with_lights (set_light_selected false <$> lights s)
         (with_objects (select_set false <$> objects s) s))).

(** [bpy.ops.object.select_by_type(type=ty)]: the objects of that type
    become the selection. *)
Definition select_by_type (ty : string) : Py Bpy unit :=
  record (Op_select_by_type ty) ;;
  modify (fun s =>
    with_cameras ((fun c => (fst c, String.eqb ty "CAMERA")) <$> cameras s)
      (with_lights (set_light_selected (String.eqb ty "LIGHT") <$> lights s)
         (with_objects (select_set (String.eqb ty "MESH") <$> objects s) s))).

(** Where the active object ends up when the selected ones are removed. *)
Definition active_after_delete (objs : list Object) (a : option nat) : option nat :=
  match a with
  | None => None
  | Some i =>
      match objs !! i with
      | Some o =>
          if selected o then None
          else Some (length (filter (fun o' => selected o' = false) (take i objs)))
      | None => None
      end
  end.

(** [bpy.ops.object.delete()]: the selected objects leave the scene. *)
Definition delete : Py Bpy unit :=
  record Op_delete ;;
  modify (fun s =>
    with_active (active_after_delete (objects s) (active s))
      (with_cameras (filter (fun c => snd c = false) (cameras s))
         (with_lights (filter (fun l => light_selected l = false) (lights s))
            (with_objects (filter (fun o => selected o = false) (objects s)) s)))).

(** [bpy.ops.import_scene.gltf(filepath=path)]: the meshes of the file
    join the scene as the importer leaves them, its materials join
    [bpy.data.materials]; a path that holds no glTF binary raises. *)
Definition import_gltf (path : string) : Py Bpy unit :=
  record (Op_import_gltf path) ;;
  s <- get ;;
  match files s !! path with
  | Some (GlbFile meshes mats) =>
      modify (fun s => with_materials (mats ∪ materials s)
                         (with_objects (objects s ++ meshes) s))
  | _ => raise (RuntimeError ("Could not import " +:+ path))
  end.

(** [transform_apply(location=False, rotation=True, scale=True)]:
    rotation and scale of the selected objects go into their geometry and
    are reset to identity. *)
Definition transform_apply : Py Bpy unit :=
  record Op_transform_apply ;;
  on_selected (fun o => set_scale (1, 1, 1)%Q (set_rotation_euler (0, 0, 0)%Q o)).

(** [origin_set(type='ORIGIN_GEOMETRY', center='BOUNDS')] *)
Definition origin_set : Py Bpy unit :=
  record Op_origin_set ;;
  on_selected (fun o => set_location (bounds_center o) o).

Definition shade_smooth : Py Bpy unit :=
  record Op_shade_smooth ;;
  on_selected (set_shaded_smooth true).

(** [mode_set(mode='EDIT')] opens the active object and the selected
    ones; [mode_set(mode='OBJECT')] closes them. *)
Definition mode_set (mode : string) : Py Bpy unit :=
  record (Op_mode_set mode) ;;
  modify (fun s =>
    with_objects
      (imap (fun i o =>
               if String.eqb mode "EDIT"
               then set_editing (selected o || bool_decide (active s = Some i)) o
               else set_editing false o)
            (objects s)) s).

(** [mesh.select_all(action='SELECT')]: the selection inside a mesh is
    not part of the state; the call is recorded. *)
Definition mesh_select_all : Py Bpy unit :=
  record Op_mesh_select_all.

(** [mesh.normals_make_consistent(inside=False)] on the meshes in edit
    mode, called with all of their faces selected. *)
Definition normals_make_consistent : Py Bpy unit :=
  record Op_normals_make_consistent ;;
  modify (fun s =>
    with_objects
      ((fun o => if editing o then set_normals_outward true o else o)
         <$> objects s) s).

(** [camera_add(...)]: the new camera is the only selected object and the
    active one. *)
Definition camera_add : Py Bpy unit :=
  record Op_camera_add ;;
  modify (fun s =>
    with_active None
      (with_cameras (((fun c => (fst c, false)) <$> cameras s) ++ [("Camera", true)])
         (with_lights (set_light_selected false <$> lights s)
            (with_objects (select_set false <$> objects s) s)))).

(** [export_scene.gltf(filepath=path, ...)]: writes the scene, or raises
    where the file cannot be written. *)
Definition export_gltf (path : string) : Py Bpy unit :=
  record (Op_export_gltf path) ;;
  s <- get ;;
  if bool_decide (path ∈ read_only s)
  then raise (RuntimeError ("Could not write " +:+ path))
  else modify (fun s =>
         with_files (<[path := GlbFile (objects s) (materials s)]> (files s)) s).

End Ops.

(* ===================================================================== *)
(** * The per-asset pipeline (lines 36-45, 253-369) *)
(* ===================================================================== *)

Definition clear_scene : Py Bpy unit :=
  Ops.select_all_deselect ;;
  Ops.select_by_type "MESH" ;;
  Ops.delete ;;
  Ops.select_by_type "LIGHT" ;;
  Ops.delete ;;
  Ops.select_by_type "CAMERA" ;;
  Ops.delete.

(** [bpy.data.lights.new], [bpy.data.objects.new] and
    [collection.objects.link] for one light. *)
Definition add_light (l : Light) : Py Bpy unit :=
  modify (fun s => with_lights (lights s ++ [l]) s).

Definition setup_lighting : Py Bpy unit :=
  (* Remove existing lights *)
  Ops.select_by_type "LIGHT" ;;
  Ops.delete ;;
  (* Add key light *)
  add_light (mkLight "Key Light" "SUN" 2.0 None (0, 0, 0)%Q (0.7854, 0, 0.7854)%Q false) ;;
  (* Add fill light *)
  add_light (mkLight "Fill Light" "AREA" 5.0 (Some 5.0%Q) (5, -5, 5)%Q
                     (0.7854, 0, -0.7854)%Q false) ;;
  (* Add rim light *)
  add_light (mkLight "Rim Light" "AREA" 3.0 (Some 3.0%Q) (-5, 5, 5)%Q
                     (-0.5, 0, -0.5)%Q false).

(** The body of [for obj in imported_objects] (lines 299-328) for the
    object at position [i] of the scene. *)
Definition normalize_object (i : nat) : Py Bpy unit :=
  (* Select the object *)
  modify (with_active (Some i)) ;;
  update_object i (select_set true) ;;
  (* Fix scale and rotation *)
  update_object i (set_scale (1, 1, 1)%Q) ;;
  update_object i (set_rotation_euler (0, 0, 0)%Q) ;;
  Ops.transform_apply ;;
  (* Center the object *)
  Ops.origin_set ;;
  update_object i (set_location (0, 0, 0)%Q) ;;
  (* Process materials *)
  record Call_process_materials ;;
  s <- get ;;
  match objects s !! i with
  | None => raise (ReferenceError "Object")
  | Some obj =>
      process_materials obj ;;
      (* Enable smooth shading and auto smooth *)
      (if bool_decide (polygons obj ≠ 0%nat) then
         Ops.shade_smooth ;;
         update_object i (set_use_auto_smooth true) ;;
         update_object i (set_auto_smooth_angle 1.0472)
       else pass) ;;
      (* Fix normals *)
      Ops.mode_set "EDIT" ;;
      Ops.mesh_select_all ;;
      Ops.normals_make_consistent ;;
      Ops.mode_set "OBJECT" ;;
      (* Deselect the object *)
      update_object i (select_set false)
  end.

(** ['Camera' in bpy.data.objects] *)
Definition has_object_named (n : string) (s : Bpy) : bool :=
  bool_decide (n ∈ (obj_name <$> objects s) ++ (light_name <$> lights s)
                   ++ (fst <$> cameras s)).

(** [process_model].  The render settings written before the export
    (lines 342-344) and [scene.camera] are stored by the host and read by
    nothing in the script; they are left out of the state. *)
Definition process_model (input_path output_path : string) : Py Bpy unit :=
  print ("Processing: " +:+ input_path) ;;
  (* Clear the scene *)
  clear_scene ;;
  (* Import GLB *)
  Ops.import_gltf input_path ;;
  (* Get all imported objects *)
  s <- get ;;
  let imported_objects := seq 0 (length (objects s)) in
  (* Process each object *)
  for_each imported_objects normalize_object ;;
  (* Setup camera for better view *)
  s <- get ;;
  (if negb (has_object_named "Camera" s) then Ops.camera_add else pass) ;;
  (* Setup lighting *)
  setup_lighting ;;
  hdri_path <- download_hdri ;;
  setup_hdri hdri_path ;;
  (* Export the model *)
  Ops.export_gltf output_path ;;
  print ("Exported: " +:+ output_path).

(* ===================================================================== *)
(** * The run over the asset list (lines 393-419, 677-690) *)
(* ===================================================================== *)

(** [with open(path, 'w') as f: f.write(...)] *)
Definition write_file (path : string) (content : File) : Py Bpy unit :=
  s <- get ;;
  if bool_decide (path ∈ read_only s) then raise (OSError path)
  else modify (fun s => with_files (<[path := content]> (files s)) s).

(** The double quote and the backslash. *)
Definition dquote : ascii := "034"%char.
Definition backslash : ascii := "092"%char.

(** [safe_name] (line 430): the model name with a backslash put before
    each double quote, as the page shows it in its title, its heading, the
    alternative text and the loading message. *)
Definition safe_name (model_name : string) : string :=
  PyStr.replace_char dquote (String backslash (String dquote EmptyString)) model_name.

(** [generate_html_viewer]: the page text is a fixed template around the
    model name; [OUTPUT_DIR] exists since the script created it on start. *)
Definition generate_html_viewer (model_name : string) : Py Bpy bool :=
  let html_path := PyStr.path_join OUTPUT_DIR (model_name +:+ "_viewer.html") in
  try_except
    (write_file html_path (HtmlFile model_name) ;;
     print ("✅ Successfully generated viewer: " +:+ html_path) ;;
     ret true)
    (fun e =>
       print ("❌ Error generating viewer for " +:+ model_name) ;;
       ret false).

Record Model : Type := mkModel {
  model_name : string;
  model_url : string
}.

Definition input_glb (model : Model) : string :=
  PyStr.path_join MODELS_DIR (model_name model +:+ ".glb").
Definition output_glb (model : Model) : string :=
  PyStr.path_join OUTPUT_DIR (model_name model +:+ "_final.glb").

Definition advisory (model : Model) : string :=
  "Please download " +:+ model_name model +:+ " model from " +:+ model_url model
  +:+ " and save as " +:+ input_glb model.

(** One turn of [for model in models] (lines 407-419). *)
Definition process_entry (model : Model) : Py Bpy unit :=
  (* Download model if not exists *)
  found <- os_path_exists (input_glb model) ;;
  if negb found then
    print (advisory model)             (* [continue] *)
  else
    (* Process the model *)
    process_model (input_glb model) (output_glb model) ;;
    (* Generate HTML viewer *)
    generate_html_viewer (model_name model) ;;
    ret tt.

Definition models : list Model :=
  [ mkModel "ring"
      "https://sketchfab.com/3d-models/doji-diamond-ring-297133c25c4b4d62b3237b05f800e323";
    mkModel "earring"
      "https://sketchfab.com/3d-models/earring-diamond-94db5e5434d14a9f87bbf3e5a5fd7dce";
    mkModel "shoe"
      "https://sketchfab.com/3d-models/nike-shoe-unboxing-animation-2a37e7725570445aa2a9c87b2a7d272a" ].

(** Lines 393-397 of [main]: the panorama is fetched and the world is set
    up, once, before the asset loop.  The lines of [main] before these
    print the paths and list the models directory; the loop after them is
    [for_each models process_entry]. *)
Definition main_environment : Py Bpy unit :=
  (* Download HDRI *)
  hdri_path <- download_hdri ;;
  (* Setup HDRI environment *)
  setup_hdri hdri_path.

(* ===================================================================== *)
(** * Vocabulary of the properties *)
(* ===================================================================== *)

(** The file [load_texture] looks a channel up in. *)
Definition texture_path (texture_name : string) : string :=
  PyStr.path_join TEXTURES_DIR (texture_name +:+ ".png").

(** The line [load_texture] prints when a file is there and does not load. *)
Definition load_warning (texture_name : string) : string :=
  "Warning: Could not load texture " +:+ texture_name.

(** What the disk and the loaded images hold for a channel: nothing, a file
    that loads (or was loaded before) as image [i], or a file that does
    not load. *)
Inductive Channel : Type :=
| Absent
| Loads (i : nat)
| Unreadable.

Definition channel_status (texture_name : string) (s : Bpy) : Channel :=
  let path := texture_path texture_name in
  match files s !! path with
  | None => Absent
  | Some f =>
      match find_image path (images s), f with
      | Some i, _ => Loads i
      | None, ImageFile => Loads (length (images s))
      | None, _ => Unreadable
      end
  end.

(** The loader's contract in the words of the specification: the call
    returns, an absent or unreadable file gives none together with a
    warning on the output, and a loaded image carries the caller's tag. *)
Definition loader_contract_as_specified
    (texture_name color_space : string) (s : Bpy) : Prop :=
  exists r s',
    load_texture texture_name color_space s = (Ok r, s') /\
    match channel_status texture_name s with
    | Absent | Unreadable =>
        r = None /\ stdout s' = stdout s ++ [load_warning texture_name]
    | Loads i =>
        r = Some i /\ colorspace <$> images s' !! i = Some color_space
    end.

(** A host with nothing on disk and nothing in the scene. *)
Definition blank : Bpy := mkBpy ∅ ∅ false [] ∅ [] None [] [] None [] [].

(** A host whose disk holds [path] as [f] and nothing else. *)
Definition disk_with (path : string) (f : File) : Bpy :=
  with_files {[ path := f ]} blank.

(** The tree [wire_material] leaves: it starts by removing every node, so
    the tree it was given and the host it runs on do not show in it. *)
Definition wired_tree (tx : Textures) : NodeTree :=
  fst (snd (wire_material tx (Tree.empty, blank))).

(** What [adjust_material_settings] does to a tree whose surface node is
    the node [bsdf]. *)
Definition adjusted_tree (bsdf : nat) (mat_name : string) (t : NodeTree) : NodeTree :=
  fst (snd (adjust_material_settings bsdf mat_name (t, blank))).

(** The surface node is the first node [wire_material] creates. *)
Definition surface : nat := 0.

Definition material_tree (mat : string) (tx : Textures) : NodeTree :=
  adjusted_tree surface (PyStr.lower mat) (wired_tree tx).

(** The tags [create_texture_node] writes on the images it is given. *)
Definition retag_one (img : option nat) (color_space : string)
    (imgs : list Image) : list Image :=
  match img with
  | Some i => alter (fun im => mkImage (filepath im) (tag_of color_space)) i imgs
  | None => imgs
  end.

Definition retag (tx : Textures) (imgs : list Image) : list Image :=
  retag_one (metallic_map tx) "Non-Color"
    (retag_one (roughness_map tx) "Non-Color"
       (retag_one (normal_map tx) "Non-Color"
          (retag_one (base_color_map tx) "sRGB" imgs))).

(** ** Classification, in the words of the specification

    An ordered rule table, tested top to bottom against the lower-cased
    name; the first rule with a keyword in the name wins, and a name that
    matches no rule gets the default. *)
Record Rule : Type := mkRule {
  keywords : list string;
  metallic : Q;
  roughness : Q;
  further : list (string * Q)         (* the other inputs the rule sets *)
}.

Definition gold_rule : Rule := mkRule ["gold"] 1.0 0.2 [].
Definition silver_rule : Rule := mkRule ["silver"; "metal"] 1.0 0.1 [].
Definition diamond_rule : Rule :=
  mkRule ["diamond"; "gem"] 0.0 0.02 [("Transmission", 1.0%Q); ("IOR", 2.4%Q)].
Definition default_rule : Rule := mkRule [] 0.0 0.7 [("Specular", 0.5%Q)].

Definition rule_table : list Rule := [gold_rule; silver_rule; diamond_rule].

Definition matches (name : string) (r : Rule) : bool :=
  existsb (fun k => PyStr.contains k (PyStr.lower name)) (keywords r).

Fixpoint first_match (name : string) (table : list Rule) : Rule :=
  match table with
  | [] => default_rule
  | r :: table' => if matches name r then r else first_match name table'
  end.

Definition classify (name : string) : Rule := first_match name rule_table.

(** A name contains [word] in some letter case: a stretch of the name
    lower-cases to [word]. *)
Definition contains_in_any_case (word name : string) : Prop :=
  exists pre mid post,
    name = pre +:+ mid +:+ post /\ PyStr.lower mid = word.

(** The [default_value] the script has left on input [k] of node [n]. *)
Definition default_value (t : NodeTree) (n : nat) (k : string) : option Q :=
  nd ← nodes t !! n; default_values nd !! SName k.

(** The links that end in an input of node [n]. *)
Definition links_into (t : NodeTree) (n : nat) : list Link :=
  filter (fun l => to_node l = n) (links t).

(** The image texture nodes of a tree. *)
Definition samplers (t : NodeTree) : list Node :=
  filter (fun nd => bl_idname nd = ShaderNodeTexImage) (nodes t).

(** Every non-null slot of the object names a material that is there. *)
Definition slots_bound (obj : Object) (s : Bpy) : Prop :=
  forall mat, Some mat ∈ material_slots obj -> is_Some (materials s !! mat).

(** [s'] differs from [s] at most in the loaded images and the output. *)
Definition touches_images_only (s s' : Bpy) : Prop :=
  s' = with_stdout (stdout s') (with_images (images s') s).

(** The four channels of [process_materials] with the color space each is
    loaded in. *)
Definition channels : list (string * string) :=
  [("albedo", "sRGB"); ("normal", "Non-Color");
   ("roughness", "Non-Color"); ("metallic", "Non-Color")].

(** The image a channel resolved to has the channel's file and tag. *)
Definition tagged (imgs : list Image) (img : option nat)
    (channel : string * string) : Prop :=
  forall i, img = Some i ->
    imgs !! i = Some (mkImage (texture_path (fst channel)) (tag_of (snd channel))).

Definition well_tagged (imgs : list Image) (tx : Textures) : Prop :=
  tagged imgs (base_color_map tx) ("albedo", "sRGB") /\
  tagged imgs (normal_map tx) ("normal", "Non-Color") /\
  tagged imgs (roughness_map tx) ("roughness", "Non-Color") /\
  tagged imgs (metallic_map tx) ("metallic", "Non-Color").

(** The four loads at the top of [process_materials]. *)
Definition load_all : Py Bpy Textures :=
  base_color_map <- load_texture "albedo" "sRGB" ;;
  normal_map <- load_texture "normal" "Non-Color" ;;
  roughness_map <- load_texture "roughness" "Non-Color" ;;
  metallic_map <- load_texture "metallic" "Non-Color" ;;
  ret (mkTextures base_color_map normal_map roughness_map metallic_map).

(** The host after the slot loop has rebuilt material [mat]. *)
Definition rebuilt (tx : Textures) (s : Bpy) (mat : string) : Bpy :=
  with_materials (<[mat := mkMaterial true (material_tree mat tx)]> (materials s)) s.

Definition rebuild_slot (tx : Textures) (s : Bpy) (slot : option string) : Bpy :=
  match slot with
  | Some mat => rebuilt tx s mat
  | None => s
  end.

Definition no_textures : Textures := mkTextures None None None None.

(** No channel has a file that loads. *)
Definition nothing_loads (s : Bpy) : Prop :=
  forall ch i, ch ∈ channels -> channel_status (fst ch) s <> Loads i.

(** The links that leave an image texture node, each with the image of the
    node and the input it ends in. *)
Definition sampler_links (t : NodeTree) : list (option nat * Socket) :=
  omap (fun l =>
          nd ← nodes t !! from_node l;
          if decide (bl_idname nd = ShaderNodeTexImage)
          then Some (image nd, to_socket l) else None)
       (links t).

(** Where [wire_material] connects the texture of each channel. *)
Definition wired (img : option nat) (input : string) : list (option nat * Socket) :=
  match img with
  | Some i => [(Some i, SName input)]
  | None => []
  end.

Definition expected_sampler_links (tx : Textures) : list (option nat * Socket) :=
  wired (base_color_map tx) "Base Color" ++ wired (normal_map tx) "Color"
  ++ wired (roughness_map tx) "Roughness" ++ wired (metallic_map tx) "Metallic".

(** The tag declared for a texture by the input it feeds: the base color
    is color data, everything else is not. *)
Definition declared_tag (input : Socket) : string :=
  if decide (input = SName "Base Color") then "sRGB" else "Non-Color".

(** ** Sample inputs *)

(** A ring with a gold-plated band and an empty second slot; it has no
    faces. *)
Definition ring : Object :=
  mkObject "Ring" (2, 2, 2)%Q (0.5, 0, 0)%Q (3, 0, 0)%Q true false 0
           false false 0 false (7, 7, 7)%Q [Some "Gold Metal"; None].

(** A gem with four faces and no material slot. *)
Definition gem : Object :=
  mkObject "Gem" (1, 1, 1)%Q (0, 0, 0)%Q (0, 0, 1)%Q false false 4
           false false 0 false (0, 0, 1)%Q [].

(** A host that holds the ring's material and no texture file. *)
Definition bare_host : Bpy :=
  with_materials {[ "Gold Metal" := mkMaterial false Tree.empty ]} blank.

(** The same host with a base color texture on disk. *)
Definition textured_host : Bpy :=
  with_files {[ texture_path "albedo" := ImageFile ]} bare_host.

(** ** The world tree *)

(** Node types in creation order, and the links. *)
Definition topology (t : NodeTree) : list NodeType * list Link :=
  (bl_idname <$> nodes t, links t).

(** The environment texture node is the first node [build_world] creates. *)
Definition env_tex : nat := 0.

(** The world tree [build_world] leaves when the panorama does not load:
    the run ends in the handler, at the color it writes. *)
Definition fallback_world_tree : NodeTree :=
  fst (snd (build_world "" (Tree.empty, blank))).

(** The world tree when the panorama loads as image [i]: the tree built
    around a panorama that loads first, with [i] for its image. *)
Definition loaded_world_tree (i : nat) : NodeTree :=
  snd (Tree.update env_tex
         (fun nd => mkNode (bl_idname nd) (Some i) (node_location nd) (vector_type nd)
                           (color nd) (default_values nd))
         (fst (snd (build_world "" (Tree.empty, disk_with "" ImageFile))))).

(** The exceptions [setup_hdri] ends with: the one of the color written in
    the handler, and the one of the studio light of line 134. *)
Definition color_error : Exn := ValueError COLOR_LENGTH_ERROR.
Definition studio_light_error : Exn := TypeError ("enum " +:+ "STUDIO" +:+ " not found").

(** A tree that holds the environment texture node and nothing else. *)
Definition lone_env_tex : list NodeType * list Link :=
  ([ShaderNodeTexEnvironment], []).

(** The file the panorama is kept in. *)
Definition hdri_path : string := PyStr.path_join TEXTURES_DIR "studio_small_09.hdr".

(** A host whose panorama file is on disk and does not load. *)
Definition broken_panorama_host : Bpy := disk_with hdri_path OtherFile.

Definition hdri_warning (hdri_path : string) : string :=
  "Warning: Could not load HDRI from " +:+ hdri_path.

(** Coordinate source -> mapping -> environment texture -> background,
    background and ambient occlusion -> mix -> output. *)
Definition world_topology : list NodeType * list Link :=
  ([ShaderNodeTexEnvironment; ShaderNodeBackground; ShaderNodeMapping;
    ShaderNodeTexCoord; ShaderNodeMixShader; ShaderNodeAmbientOcclusion;
    ShaderNodeOutputWorld],
   [mkLink 3 (SName "Generated") 2 (SName "Vector");
    mkLink 2 (SName "Vector") env_tex (SName "Vector");
    mkLink env_tex (SName "Color") 1 (SName "Color");
    mkLink 1 (SName "Background") 4 (SIdx 1);
    mkLink 5 (SName "Color") 4 (SIdx 2);
    mkLink 4 (SIdx 0) 6 (SName "Surface")]).

(** ** The stages of the normalizer *)

Inductive Stage : Type :=
| Imported
| TransformBaked
| OriginCentered
| Shaded
| Smoothed
| NormalsFixed
| Done.

Global Instance Stage_eq_dec : EqDecision Stage.
Proof. solve_decision. Defined.

Definition rank (st : Stage) : nat :=
  match st with
  | Imported => 0
  | TransformBaked => 1
  | OriginCentered => 2
  | Shaded => 3
  | Smoothed => 4
  | NormalsFixed => 5
  | Done => 6
  end.

(** The call that carries out a stage: baking is [transform_apply],
    centering is [origin_set], shading is the call of [process_materials],
    smoothing is [shade_smooth], and the normals are recomputed by
    [normals_make_consistent]. *)
Definition stage_of (op : Op) : option Stage :=
  match op with
  | Op_transform_apply => Some TransformBaked
  | Op_origin_set => Some OriginCentered
  | Call_process_materials => Some Shaded
  | Op_shade_smooth => Some Smoothed
  | Op_normals_make_consistent => Some NormalsFixed
  | _ => None
  end.

(** The stages run while object [i] was the active one. *)
Definition stages_of (i : nat) (cs : list (option nat * Op)) : list Stage :=
  omap (fun c => if decide (fst c = Some i) then stage_of (snd c) else None) cs.

(** Each stage comes later in the order than the one before it. *)
Fixpoint forward (sts : list Stage) : Prop :=
  match sts with
  | st :: ((st' :: _) as rest) => rank st < rank st' /\ forward rest
  | _ => True
  end.

(** The calls one turn of the object loop makes, for an object with or
    without faces. *)
Definition calls_before_materials : list Op :=
  [Op_transform_apply; Op_origin_set; Call_process_materials].

Definition calls_after_materials (has_faces : bool) : list Op :=
  (if has_faces then [Op_shade_smooth] else [])
  ++ [Op_mode_set "EDIT"; Op_mesh_select_all; Op_normals_make_consistent;
      Op_mode_set "OBJECT"].

Definition has_faces (obj : Object) : bool := bool_decide (polygons obj ≠ 0%nat).

(** The objects of the scene when the loop body reaches
    [process_materials(obj)] for the object at [i]. *)
Definition objects_before_materials (i : nat) (objs : list Object) : list Object :=
  alter (set_location (0, 0, 0)%Q) i
    (when_selected (fun o => set_location (bounds_center o) o) <$>
       (when_selected (fun o => set_scale (1, 1, 1)%Q
                                  (set_rotation_euler (0, 0, 0)%Q o)) <$>
          alter (set_rotation_euler (0, 0, 0)%Q) i
            (alter (set_scale (1, 1, 1)%Q) i
               (alter (select_set true) i objs)))).

(** The objects of the scene at the end of the loop body. *)
Definition objects_after_materials (i : nat) (faces : bool)
    (objs : list Object) : list Object :=
  let smoothed :=
    if faces then
      alter (set_auto_smooth_angle 1.0472) i
        (alter (set_use_auto_smooth true) i
           (when_selected (set_shaded_smooth true) <$> objs))
    else objs in
  alter (select_set false) i
    (imap (fun _ o => set_editing false o)
       ((fun o => if editing o then set_normals_outward true o else o) <$>
          imap (fun j o => set_editing (selected o || bool_decide (Some i = Some j)) o)
            smoothed)).

(** The observable transform of an object. *)
Definition transform (o : Object) : V3 * V3 * V3 :=
  (scale o, rotation_euler o, location o).

Definition identity_at_origin : V3 * V3 * V3 :=
  ((1, 1, 1)%Q, (0, 0, 0)%Q, (0, 0, 0)%Q).

(** The object loop of [process_model] (line 298) on the scene as it is. *)
Definition normalize_all : Py Bpy unit :=
  s <- get ;;
  for_each (seq 0 (length (objects s))) normalize_object.

(** Every object of the scene has its slots bound. *)
Definition scene_bound (s : Bpy) : Prop :=
  forall obj, obj ∈ objects s -> slots_bound obj s.

(** Operator calls made while [a] is the active object. *)
Definition tag_calls (a : option nat) (ops : list Op) : list (option nat * Op) :=
  (fun op => (a, op)) <$> ops.

(** What one turn of the loop records for the object [obj] at [i]. *)
Definition turn_calls (i : nat) (obj : Object) : list (option nat * Op) :=
  tag_calls (Some i) (calls_before_materials ++ calls_after_materials (has_faces obj)).

(** What the loop records from position [k] on. *)
Definition loop_calls (k : nat) (objs : list Object) : list (option nat * Op) :=
  mjoin (imap (fun j obj => turn_calls (k + j) obj) objs).

(** What the turn for object [i] does to one object of the scene, up to
    the call of [process_materials]: [mine] tells whether the object is
    the one at [i]. *)
Definition before_one (mine : bool) (o : Object) : Object :=
  let reset o := set_scale (1, 1, 1)%Q (set_rotation_euler (0, 0, 0)%Q o) in
  let center o := set_location (bounds_center o) o in
  if mine then
    set_location (0, 0, 0)%Q
      (when_selected center
         (when_selected reset
            (set_rotation_euler (0, 0, 0)%Q
               (set_scale (1, 1, 1)%Q (select_set true o)))))
  else when_selected center (when_selected reset o).

(** The same for the rest of the turn. *)
Definition after_one (faces mine : bool) (o : Object) : Object :=
  let o1 :=
    if faces then
      if mine then
        set_auto_smooth_angle 1.0472
          (set_use_auto_smooth true (when_selected (set_shaded_smooth true) o))
      else when_selected (set_shaded_smooth true) o
    else o in
  let o2 := set_editing (selected o1 || mine) o1 in
  let o3 := if editing o2 then set_normals_outward true o2 else o2 in
  let o4 := set_editing false o3 in
  if mine then select_set false o4 else o4.

(** Two objects with the same name, faces and slots. *)
Definition same_mesh (o o' : Object) : Prop :=
  obj_name o' = obj_name o /\ polygons o' = polygons o /\
  material_slots o' = material_slots o.

(** The objects before position [k] are deselected, with identity scale
    and rotation and their origin at the world origin. *)
Definition normalized_upto (k : nat) (objs : list Object) : Prop :=
  forall j o, j < k -> objs !! j = Some o ->
    transform o = identity_at_origin /\ selected o = false.

(** The stages of one turn of the loop, for an object with or without
    faces. *)
Definition turn_stages (obj : Object) : list Stage :=
  [TransformBaked; OriginCentered; Shaded]
  ++ (if has_faces obj then [Smoothed] else []) ++ [NormalsFixed].

(** The calls made since the host was in state [s]. *)
Definition calls_since (s s' : Bpy) : list (option nat * Op) :=
  drop (length (calls s)) (calls s').

(** A scene with the ring and the gem, both as the importer left them. *)
Definition ring_scene : Bpy := with_objects [ring; gem] bare_host.

(** The zero-polygon rule in the words of the specification: the turn of
    a mesh without faces returns and runs neither the smoothing nor the
    normal recomputation. *)
Definition skips_smoothing_and_normals_as_specified (i : nat) (s : Bpy) : Prop :=
  forall obj, objects s !! i = Some obj -> polygons obj = 0%nat ->
    exists s',
      normalize_object i s = (Ok tt, s') /\
      (Smoothed ∉ stages_of i (calls_since s s')) /\
      (NormalsFixed ∉ stages_of i (calls_since s s')).

(** ** The run over the asset list *)

(** The assets the loop reaches, each with the host state it is reached
    in: the loop goes on to the next asset when the turn of the one before
    returns. *)
Fixpoint journey (ms : list Model) (s : Bpy) : list (Model * Bpy) :=
  match ms with
  | [] => []
  | m :: ms' =>
      (m, s) :: match process_entry m s with
                | (Ok _, s') => journey ms' s'
                | (Raise _, _) => []
                end
  end.

Definition reached (ms : list Model) (s : Bpy) : list Model :=
  fst <$> journey ms s.






(** A host with the ring's file in the models directory and a network. *)
Definition studio_host : Bpy :=
  with_files
    {[ input_glb (mkModel "ring" "") :=
         GlbFile [ring; gem] {[ "Gold Metal" := mkMaterial false Tree.empty ]} ]}
    blank.

(** A host with all three assets in place; the export target of the first
    one is not writable. *)
Definition locked_host : Bpy :=
  mkBpy
    (list_to_map
       ((fun n => (input_glb (mkModel n ""),
                   GlbFile [ring; gem] {[ "Gold Metal" := mkMaterial false Tree.empty ]}))
        <$> ["ring"; "earring"; "shoe"]))
    {[ output_glb (mkModel "ring" "") ]}
    false [] ∅ [] None [] [] None [] [].



(* ===================================================================== *)
(** * Vocabulary of the further properties *)
(* ===================================================================== *)

(** The calls of [clear_scene]: the first delete takes the active object
    with it, so the calls after it see no active object. *)
Definition clear_scene_calls (a : option nat) : list (option nat * Op) :=
  tag_calls a [Op_select_all "DESELECT"; Op_select_by_type "MESH"; Op_delete]
  ++ tag_calls None [Op_select_by_type "LIGHT"; Op_delete;
                     Op_select_by_type "CAMERA"; Op_delete].

(** The host with an empty scene: the data-blocks, the world, the disk and
    the output stay, the meshes, lights and cameras go. *)
Definition emptied (s : Bpy) : Bpy :=
  with_calls (calls s ++ clear_scene_calls (active s))
    (with_cameras [] (with_lights [] (with_active None (with_objects [] s)))).

(** The three lights of [setup_lighting]. *)
Definition key_light : Light :=
  mkLight "Key Light" "SUN" 2.0 None (0, 0, 0)%Q (0.7854, 0, 0.7854)%Q false.
Definition fill_light : Light :=
  mkLight "Fill Light" "AREA" 5.0 (Some 5.0%Q) (5, -5, 5)%Q (0.7854, 0, -0.7854)%Q false.
Definition rim_light : Light :=
  mkLight "Rim Light" "AREA" 3.0 (Some 3.0%Q) (-5, 5, 5)%Q (-0.5, 0, -0.5)%Q false.
Definition studio_lights : list Light := [key_light; fill_light; rim_light].

(** The active object when the deselected lights-only selection is
    deleted: it stays if it names an object of the scene. *)
Definition kept_active (objs : list Object) (a : option nat) : option nat :=
  a ≫= fun i => if decide (i < length objs) then Some i else None.

Definition download_notice : string :=
  "Downloading HDRI from " +:+ HDRI_URL +:+ "...".

(** A host without a network: the ring asset is on disk, the panorama is
    not. *)
Definition offline_host : Bpy :=
  mkBpy (files studio_host) ∅ true [] ∅ [] None [] [] None [] [].

(** The host after the panorama has been fetched. *)
Definition fetched (s : Bpy) : Bpy :=
  with_files (<[hdri_path := ImageFile]> (files s))
    (with_stdout (stdout s ++ [download_notice]) s).

(** How often the character [c] occurs in [s]. *)
Fixpoint occurrences (c : ascii) (s : string) : nat :=
  match s with
  | EmptyString => 0
  | String c' s' => (if Ascii.eqb c' c then 1 else 0) + occurrences c s'
  end.

(** ** Shape of a node tree *)

(** The place of a node type in the data flow, from the coordinate source
    to the output. *)
Definition depth (ty : NodeType) : nat :=
  match ty with
  | ShaderNodeTexCoord => 0
  | ShaderNodeMapping => 1
  | ShaderNodeTexImage | ShaderNodeTexEnvironment => 2
  | ShaderNodeNormalMap | ShaderNodeBackground | ShaderNodeAmbientOcclusion => 3
  | ShaderNodeBsdfPrincipled | ShaderNodeMixShader => 4
  | ShaderNodeOutputMaterial | ShaderNodeOutputWorld => 5
  end.

Definition node_depth (t : NodeTree) (n : nat) : option nat :=
  (fun nd => depth (bl_idname nd)) <$> nodes t !! n.

(** Both ends of the link are nodes of the tree, and the link leads to a
    node further down the data flow. *)
Definition descends (t : NodeTree) (l : Link) : bool :=
  match node_depth t (from_node l), node_depth t (to_node l) with
  | Some a, Some b => (a <? b)%nat
  | _, _ => false
  end.

Definition layered (t : NodeTree) : bool := forallb (descends t) (links t).

(** Data flows from node [a] to node [b] along one or more links. *)
Inductive flows (t : NodeTree) : nat -> nat -> Prop :=
| flows_link l : l ∈ links t -> flows t (from_node l) (to_node l)
| flows_trans a b c : flows t a b -> flows t b c -> flows t a c.

Definition is_output (ty : NodeType) : bool :=
  match ty with
  | ShaderNodeOutputMaterial | ShaderNodeOutputWorld => true
  | _ => false
  end.

(** The positions of the output nodes of a tree. *)
Definition output_nodes (t : NodeTree) : list nat :=
  fst <$> filter (fun p => is_output (bl_idname (snd p)) = true)
                 (imap (fun i nd => (i, nd)) (nodes t)).

(** A tree is sound when no link dangles, no data flows in a circle, and
    there is one output node, which is fed. *)
Definition sound_tree (t : NodeTree) : Prop :=
  (forall l, l ∈ links t ->
     is_Some (nodes t !! from_node l) /\ is_Some (nodes t !! to_node l)) /\
  (forall n, ~ flows t n n) /\
  exists out, output_nodes t = [out] /\ links_into t out <> [].

(** ** The material pass run again *)

(** What a call of [load_texture] leaves of a channel: the file and the
    image the call returned, or nothing that loads. *)
Definition stable (name : string) (r : option nat) (s : Bpy) : Prop :=
  match r with
  | Some i => is_Some (files s !! texture_path name) /\
              find_image (texture_path name) (images s) = Some i
  | None => files s !! texture_path name = None \/
            (files s !! texture_path name <> Some ImageFile /\
             find_image (texture_path name) (images s) = None)
  end.

(** The object has no material slot with a material in it. *)
Definition only_null_slots (obj : Object) : Prop :=
  Forall (fun slot => slot = None) (material_slots obj).

(* ===================================================================== *)
(** * The texture loader *)
(* ===================================================================== *)

Section Loader.

Implicit Types (s : Bpy) (texture_name color_space path : string).

Lemma find_image_Some path (imgs : list Image) i :
  find_image path imgs = Some i ->
  exists im, imgs !! i = Some im /\ filepath im = path.
Proof.
  unfold find_image. intros H.
  destruct (list_find _ imgs) as [[j im]|] eqn:E; simplify_eq/=.
  apply list_find_Some in E as (? & ? & _). eauto.
Qed.

Lemma images_load_existing path s i :
  find_image path (images s) = Some i ->
  images_load path true s = (Ok i, s).
Proof. unfold images_load. by intros ->. Qed.

Lemma images_load_new path s (check : bool) :
  (if check then find_image path (images s) else None) = None ->
  files s !! path = Some ImageFile ->
  images_load path check s
  = (Ok (length (images s)),
     with_images (images s ++ [mkImage path loaded_colorspace]) s).
Proof. unfold images_load. by intros -> ->. Qed.

Lemma images_load_fails path s (check : bool) f :
  (if check then find_image path (images s) else None) = None ->
  files s !! path = f -> f <> Some ImageFile ->
  images_load path check s = (Raise (RuntimeError ("Cannot read " +:+ path)), s).
Proof.
  unfold images_load. intros -> <- Hf.
  destruct (files s !! path) as [[]|]; congruence.
Qed.

End Loader.

(** C6, as amended.  [load_texture] returns for every channel name, color
    space and host state, and never raises.  Where the channel's file is
    absent it returns none and the host state is untouched: nothing is
    printed.  Where the file is there and does not load it returns none
    and prints one warning.  Otherwise it returns the image, whose tag is
    ['sRGB'] when the caller passed ['sRGB'] and ['Non-Color'] for every
    other color space. *)
Theorem load_texture_contract (texture_name color_space : string) (s : Bpy) :
  exists r s',
    load_texture texture_name color_space s = (Ok r, s') /\
    match channel_status texture_name s with
    | Absent => r = None /\ s' = s
    | Unreadable =>
        r = None /\ s' = with_stdout (stdout s ++ [load_warning texture_name]) s
    | Loads i =>
        r = Some i /\
        images s' !! i
        = Some (mkImage (texture_path texture_name) (tag_of color_space)) /\
        stdout s' = stdout s
    end.
Proof.
  unfold load_texture, channel_status, texture_path.
  set (path := PyStr.path_join _ _).
  unfold bind at 1, os_path_exists.
  destruct (files s !! path) as [f|] eqn:Hf; cbn [bool_decide].
  2:{ rewrite bool_decide_eq_false_2 by (by intros [? ?]).
      eexists _, _. split; [reflexivity|]. done. }
  rewrite bool_decide_eq_true_2 by eauto.
  unfold try_except, bind.
  destruct (find_image path (images s)) as [i|] eqn:Hi.
  - rewrite (images_load_existing _ _ _ Hi).
    destruct (find_image_Some _ _ _ Hi) as (im & Him & Hp).
    eexists _, _. split; [reflexivity|]. cbn.
    split; [done|]. split; [|done].
    rewrite list_lookup_alter_eq, Him. cbn. by rewrite Hp.
  - destruct f as [| meshes mats | n |].
    1:{ rewrite (images_load_new path s true) by done.
        eexists _, _. split; [reflexivity|]. cbn.
        split; [done|]. split; [|done].
        rewrite list_lookup_alter_eq, lookup_app_r, Nat.sub_diag by done. done. }
    all: erewrite (images_load_fails path s true) by (done || by rewrite Hf).
    all: eexists _, _; split; [reflexivity|]; done.
Qed.

(** C6, the claim as stated fails twice.  With no [albedo.png] on disk the
    loader returns none and prints no warning; and a caller that passes the
    color space ['Linear'] gets an image tagged ['Non-Color']. *)
Lemma load_texture_contract_as_specified_fails :
  ~ loader_contract_as_specified "albedo" "sRGB" blank /\
  ~ loader_contract_as_specified "albedo" "Linear"
      (disk_with (texture_path "albedo") ImageFile).
Proof.
  split; intros (r & s' & Hrun & Hc).
  - vm_compute in Hrun. injection Hrun as <- <-.
    vm_compute in Hc. destruct Hc as [_ Hc]. discriminate Hc.
  - vm_compute in Hrun. injection Hrun as <- <-.
    vm_compute in Hc. destruct Hc as [_ Hc]. discriminate Hc.
Qed.

(* ===================================================================== *)
(** * Material trees *)
(* ===================================================================== *)

Lemma wire_material_run tx t s :
  wire_material tx (t, s)
  = (Ok surface, (wired_tree tx, with_images (retag tx (images s)) s)).
Proof.
  destruct tx as [[b|] [n|] [r|] [m|]], s.
  all: vm_compute; reflexivity.
Qed.

Lemma adjust_material_settings_run bsdf mat_name t s :
  adjust_material_settings bsdf mat_name (t, s)
  = (Ok tt, (adjusted_tree bsdf mat_name t, s)).
Proof.
  unfold adjusted_tree, adjust_material_settings.
  destruct (PyStr.contains "gold" mat_name); [reflexivity|].
  destruct (_ || _); [reflexivity|].
  destruct (_ || _); reflexivity.
Qed.

Lemma build_material_run mat tx t s :
  build_material mat tx (t, s)
  = (Ok tt, (material_tree mat tx, with_images (retag tx (images s)) s)).
Proof.
  unfold build_material, bind. rewrite wire_material_run.
  by rewrite adjust_material_settings_run.
Qed.

(* ===================================================================== *)
(** * Substring tests *)
(* ===================================================================== *)

Section Strings.

Implicit Types (a b needle hay pre post : string).

Lemma lower_app a b : PyStr.lower (a +:+ b) = PyStr.lower a +:+ PyStr.lower b.
Proof. induction a as [|c a IH]; simpl; [done | by rewrite IH]. Qed.

Lemma prefix_app needle post : String.prefix needle (needle +:+ post) = true.
Proof.
  induction needle as [|c needle IH]; simpl; [by destruct post|].
  destruct (ascii_dec c c); [done | congruence].
Qed.

Lemma contains_here needle post : PyStr.contains needle (needle +:+ post) = true.
Proof.
  destruct needle as [|c needle].
  - destruct post; reflexivity.
  - simpl. destruct (ascii_dec c c); [|congruence].
    by rewrite prefix_app.
Qed.

Lemma contains_later needle pre hay :
  PyStr.contains needle hay = true -> PyStr.contains needle (pre +:+ hay) = true.
Proof.
  intros H. induction pre as [|c pre IH]; simpl; [done|].
  rewrite IH. apply orb_true_r.
Qed.

Lemma contains_in_any_case_lower word name :
  contains_in_any_case word name ->
  PyStr.contains word (PyStr.lower name) = true.
Proof.
  intros (pre & mid & post & -> & <-).
  rewrite !lower_app. apply contains_later, contains_here.
Qed.

End Strings.

(* ===================================================================== *)
(** * Loading the four channels *)
(* ===================================================================== *)

Lemma touches_images_only_refl s : touches_images_only s s.
Proof. by destruct s. Qed.

Lemma touches_images_only_trans s1 s2 s3 :
  touches_images_only s1 s2 -> touches_images_only s2 s3 ->
  touches_images_only s1 s3.
Proof.
  unfold touches_images_only. intros H12 H23.
  rewrite H23 at 1. rewrite H12 at 1. by destruct s1.
Qed.

Lemma touches_images_only_fields s s' :
  touches_images_only s s' ->
  files s' = files s /\ materials s' = materials s /\ objects s' = objects s /\
  calls s' = calls s /\ active s' = active s /\ world s' = world s.
Proof. intros ->. by destruct s. Qed.

(** What one load does to the images: the image it returns has the
    channel's file and tag, and images of other files are left alone. *)
Lemma load_texture_run name cs s :
  exists r s',
    load_texture name cs s = (Ok r, s') /\
    touches_images_only s s' /\
    tagged (images s') r (name, cs) /\
    (forall j im, images s !! j = Some im ->
                  filepath im <> texture_path name -> images s' !! j = Some im) /\
    match channel_status name s with
    | Loads i => r = Some i
    | _ => r = None /\ images s' = images s
    end.
Proof.
  unfold load_texture, channel_status, tagged, texture_path.
  set (path := PyStr.path_join _ _).
  unfold bind at 1, os_path_exists.
  destruct (files s !! path) as [f|] eqn:Hf; cbn [bool_decide].
  2:{ rewrite bool_decide_eq_false_2 by (by intros [? ?]).
      eexists _, _. split; [reflexivity|].
      split; [apply touches_images_only_refl|]. done. }
  rewrite bool_decide_eq_true_2 by eauto.
  unfold try_except, bind.
  destruct (find_image path (images s)) as [i|] eqn:Hi.
  - rewrite (images_load_existing _ _ _ Hi).
    destruct (find_image_Some _ _ _ Hi) as (im & Him & Hp).
    eexists _, _. split; [reflexivity|]. cbn.
    split; [by destruct s|]. split; [|split; [|done]].
    + intros ? [= <-]. rewrite list_lookup_alter_eq, Him. cbn. by rewrite Hp.
    + intros j im' Hj Hne. rewrite list_lookup_alter_ne; [done|].
      intros ->. congruence.
  - destruct f as [| meshes mats | n |].
    1:{ rewrite (images_load_new path s true) by done.
        eexists _, _. split; [reflexivity|]. cbn.
        split; [by destruct s|]. split; [|split; [|done]].
        - intros ? [= <-].
          rewrite list_lookup_alter_eq, lookup_app_r, Nat.sub_diag by done. done.
        - intros j im' Hj Hne. apply lookup_lt_Some in Hj as Hlt.
          rewrite list_lookup_alter_ne by lia. by rewrite lookup_app_l. }
    all: erewrite (images_load_fails path s true) by (done || by rewrite Hf).
    all: eexists _, _; split; [reflexivity|]; cbn.
    all: split; [by destruct s|]; done.
Qed.

Lemma tagged_preserved (imgs imgs' : list Image) r ch p :
  tagged imgs r ch ->
  (forall j im, imgs !! j = Some im -> filepath im <> p -> imgs' !! j = Some im) ->
  texture_path (fst ch) <> p ->
  tagged imgs' r ch.
Proof. intros Ht Hkeep Hne i ->. apply Hkeep; [by apply Ht | done]. Qed.

Lemma channel_status_same name s s' :
  files s' = files s -> images s' = images s ->
  channel_status name s' = channel_status name s.
Proof. unfold channel_status. by intros -> ->. Qed.

Lemma load_all_run s :
  exists tx s',
    load_all s = (Ok tx, s') /\
    touches_images_only s s' /\
    well_tagged (images s') tx /\
    (nothing_loads s -> tx = no_textures /\ images s' = images s).
Proof.
  unfold load_all, bind.
  destruct (load_texture_run "albedo" "sRGB" s)
    as (r1 & s1 & -> & T1 & G1 & K1 & S1).
  destruct (load_texture_run "normal" "Non-Color" s1)
    as (r2 & s2 & -> & T2 & G2 & K2 & S2).
  destruct (load_texture_run "roughness" "Non-Color" s2)
    as (r3 & s3 & -> & T3 & G3 & K3 & S3).
  destruct (load_texture_run "metallic" "Non-Color" s3)
    as (r4 & s4 & -> & T4 & G4 & K4 & S4).
  eexists _, _. split; [reflexivity|].
  split; [eauto using touches_images_only_trans|].
  split.
  - repeat split; cbn [base_color_map normal_map roughness_map metallic_map];
      eauto 10 using tagged_preserved.
  - intros Hn.
    pose proof (touches_images_only_fields _ _ T1) as (F1 & _).
    pose proof (touches_images_only_fields _ _ T2) as (F2 & _).
    pose proof (touches_images_only_fields _ _ T3) as (F3 & _).
    assert (r1 = None /\ images s1 = images s) as [-> I1].
    { destruct (channel_status "albedo" s) eqn:E; try done.
      exfalso. apply (Hn ("albedo", "sRGB") i); [|exact E].
      unfold channels. set_solver. }
    rewrite (channel_status_same _ s s1) in S2 by done.
    assert (r2 = None /\ images s2 = images s1) as [-> I2].
    { destruct (channel_status "normal" s) eqn:E; try done.
      exfalso. apply (Hn ("normal", "Non-Color") i); [|exact E].
      unfold channels. set_solver. }
    rewrite (channel_status_same _ s s2) in S3 by congruence.
    assert (r3 = None /\ images s3 = images s2) as [-> I3].
    { destruct (channel_status "roughness" s) eqn:E; try done.
      exfalso. apply (Hn ("roughness", "Non-Color") i); [|exact E].
      unfold channels. set_solver. }
    rewrite (channel_status_same _ s s3) in S4 by congruence.
    assert (r4 = None /\ images s4 = images s3) as [-> I4].
    { destruct (channel_status "metallic" s) eqn:E; try done.
      exfalso. apply (Hn ("metallic", "Non-Color") i); [|exact E].
      unfold channels. set_solver. }
    split; [done | congruence].
Qed.

(* ===================================================================== *)
(** * The slot loop *)
(* ===================================================================== *)

Lemma list_alter_same {A} (f : A -> A) (l : list A) i x :
  l !! i = Some x -> f x = x -> alter f i l = l.
Proof.
  intros Hi Hf. apply list_eq. intros j.
  destruct (decide (i = j)) as [->|Hne].
  - by rewrite list_lookup_alter_eq, Hi; cbn; rewrite Hf.
  - by rewrite list_lookup_alter_ne.
Qed.

Lemma retag_one_tagged imgs r name cs :
  tagged imgs r (name, cs) -> retag_one r cs imgs = imgs.
Proof.
  destruct r as [i|]; [|done]. intros Ht. cbn.
  eapply list_alter_same; [by apply Ht | done].
Qed.

Lemma retag_well_tagged imgs tx : well_tagged imgs tx -> retag tx imgs = imgs.
Proof.
  intros (Hb & Hn & Hr & Hm). unfold retag.
  rewrite (retag_one_tagged _ _ _ _ Hb), (retag_one_tagged _ _ _ _ Hn).
  by rewrite (retag_one_tagged _ _ _ _ Hr), (retag_one_tagged _ _ _ _ Hm).
Qed.

Lemma process_slot_run tx slot s :
  well_tagged (images s) tx ->
  (forall mat, slot = Some mat -> is_Some (materials s !! mat)) ->
  process_slot tx slot s = (Ok tt, rebuild_slot tx s slot).
Proof.
  intros Hw Hb. destruct slot as [mat|]; [|done].
  destruct (Hb mat eq_refl) as [m Hm].
  unfold process_slot, bind, set_use_nodes, modify, in_material. cbn.
  rewrite lookup_alter_eq, Hm. cbn.
  rewrite build_material_run. cbn.
  rewrite (retag_well_tagged _ _ Hw).
  destruct s; cbn in *.
  unfold rebuilt, with_materials, with_images; cbn. do 2 f_equal.
  apply map_eq. intros k. destruct (decide (k = mat)) as [->|Hne].
  - by rewrite lookup_alter_eq, lookup_alter_eq, Hm, lookup_insert_eq.
  - by rewrite !lookup_alter_ne, lookup_insert_ne.
Qed.

Lemma rebuild_slot_frame tx s slot :
  rebuild_slot tx s slot = with_materials (materials (rebuild_slot tx s slot)) s.
Proof. destruct slot, s; reflexivity. Qed.

Lemma rebuild_all_frame tx slots s :
  foldl (rebuild_slot tx) s slots
  = with_materials (materials (foldl (rebuild_slot tx) s slots)) s.
Proof.
  revert s. induction slots as [|slot slots IH]; intros s; cbn.
  - by destruct s.
  - etrans; [apply IH|].
    generalize (materials (foldl (rebuild_slot tx) (rebuild_slot tx s slot) slots)).
    intros M. rewrite rebuild_slot_frame. by destruct s.
Qed.

Lemma rebuild_all_lookup tx slots s mat :
  materials (foldl (rebuild_slot tx) s slots) !! mat
  = if decide (Some mat ∈ slots)
    then Some (mkMaterial true (material_tree mat tx))
    else materials s !! mat.
Proof.
  revert s. induction slots as [|slot slots IH]; intros s; cbn.
  - by rewrite decide_False by set_solver.
  - rewrite IH. destruct (decide (Some mat ∈ slots)) as [Hin|Hnin].
    + by rewrite decide_True by (by right).
    + destruct slot as [mat'|]; cbn.
      * destruct (decide (mat' = mat)) as [->|Hne].
        -- rewrite decide_True by (by left). apply lookup_insert_eq.
        -- rewrite decide_False; [by apply lookup_insert_ne|].
           intros [[=]|?]%elem_of_cons; done.
      * rewrite decide_False; [done|].
        intros [[=]|?]%elem_of_cons; done.
Qed.

Lemma for_each_slots tx slots s :
  well_tagged (images s) tx ->
  (forall mat, Some mat ∈ slots -> is_Some (materials s !! mat)) ->
  for_each slots (process_slot tx) s = (Ok tt, foldl (rebuild_slot tx) s slots).
Proof.
  revert s. induction slots as [|slot slots IH]; intros s Hw Hb; [done|].
  cbn. unfold bind. rewrite process_slot_run; [|done|].
  2:{ intros mat ->. apply Hb. set_solver. }
  apply IH.
  - by rewrite rebuild_slot_frame; destruct s.
  - intros mat Hin. destruct slot as [mat'|]; cbn; [|apply Hb; set_solver].
    destruct (decide (mat' = mat)) as [->|Hne].
    + rewrite lookup_insert_eq. eauto.
    + rewrite lookup_insert_ne by done. apply Hb. set_solver.
Qed.

(** [process_materials] on an object whose slots are bound: it returns,
    every material named by a slot has the tree of its name and of the
    textures that loaded, and nothing else changes but the loaded images
    and the output. *)
Lemma process_materials_run obj s :
  slots_bound obj s ->
  exists tx s',
    process_materials obj s = (Ok tt, s') /\
    s' = with_materials (materials s')
           (with_stdout (stdout s') (with_images (images s') s)) /\
    well_tagged (images s') tx /\
    (nothing_loads s -> tx = no_textures /\ images s' = images s) /\
    forall mat,
      materials s' !! mat
      = if decide (Some mat ∈ material_slots obj)
        then Some (mkMaterial true (material_tree mat tx))
        else materials s !! mat.
Proof.
  intros Hb. unfold process_materials.
  destruct (material_slots obj) as [|slot slots] eqn:Hs.
  { exists no_textures, s. rewrite bool_decide_eq_true_2 by done.
    split; [done|]. split; [by destruct s|]. split; [by repeat split|].
    split; [done|]. intros mat. by rewrite decide_False by set_solver. }
  rewrite bool_decide_eq_false_2 by done.
  destruct (load_all_run s) as (tx & s1 & Hload & T & Hw & Hn).
  pose proof (touches_images_only_fields _ _ T) as (_ & Hmats & _).
  exists tx, (foldl (rebuild_slot tx) s1 (slot :: slots)).
  split.
  { revert Hload. unfold load_all, bind.
    destruct (load_texture "albedo" "sRGB" s) as [[r1|?] s1']; [|done].
    destruct (load_texture "normal" "Non-Color" s1') as [[r2|?] s2']; [|done].
    destruct (load_texture "roughness" "Non-Color" s2') as [[r3|?] s3']; [|done].
    destruct (load_texture "metallic" "Non-Color" s3') as [[r4|?] s4']; [|done].
    intros [= <- <-]. apply for_each_slots; [done|].
    intros mat Hin. rewrite Hmats. apply Hb. by rewrite Hs. }
  pose proof (rebuild_all_frame tx (slot :: slots) s1) as HF.
  set (F := foldl (rebuild_slot tx) s1 (slot :: slots)) in *.
  assert (stdout F = stdout s1 /\ images F = images s1) as [Ho Hi].
  { rewrite HF. by destruct s1. }
  split.
  { rewrite Ho, Hi. unfold touches_images_only in T. by rewrite <- T. }
  rewrite Hi. split; [done|]. split; [done|].
  intros mat. rewrite <- Hmats. apply rebuild_all_lookup.
Qed.

(* ===================================================================== *)
(** * What the material tree holds *)
(* ===================================================================== *)

(** The five substring tests of the settings are the only place where the
    material name enters the tree. *)
Ltac split_on_name mat :=
  destruct (PyStr.contains "gold" (PyStr.lower mat)) eqn:Hgold;
  [| destruct (PyStr.contains "silver" (PyStr.lower mat)) eqn:Hsilver;
     [| destruct (PyStr.contains "metal" (PyStr.lower mat)) eqn:Hmetal;
        [| destruct (PyStr.contains "diamond" (PyStr.lower mat)) eqn:Hdiamond;
           [| destruct (PyStr.contains "gem" (PyStr.lower mat)) eqn:Hgem ]]]].

Ltac unfold_material_tree :=
  unfold material_tree, adjusted_tree, adjust_material_settings,
    classify, rule_table, first_match, matches;
  cbn [keywords existsb gold_rule silver_rule diamond_rule default_rule].

(** The settings on the surface node are those of the first rule of the
    table that matches the name. *)
Lemma surface_settings mat tx :
  let r := classify mat in
  default_value (material_tree mat tx) surface "Metallic" = Some (metallic r) /\
  default_value (material_tree mat tx) surface "Roughness" = Some (roughness r) /\
  Forall (fun kv => default_value (material_tree mat tx) surface (fst kv)
                    = Some (snd kv)) (further r).
Proof.
  destruct tx as [[b|] [n|] [r|] [m|]]; unfold_material_tree.
  all: split_on_name mat; cbn [orb].
  all: split; [vm_compute; reflexivity|].
  all: split; [vm_compute; reflexivity|].
  all: repeat constructor.
Qed.

(** The settings touch no link and no image. *)
Lemma material_tree_sampler_links mat tx :
  sampler_links (material_tree mat tx) = expected_sampler_links tx.
Proof.
  destruct tx as [[b|] [n|] [r|] [m|]]; unfold_material_tree.
  all: split_on_name mat; cbn [orb].
  all: vm_compute; reflexivity.
Qed.

(** Without textures the tree is the surface node, the output node, the
    coordinate source and the mapping node, with the two fixed links. *)
Lemma material_tree_no_textures mat :
  let t := material_tree mat no_textures in
  bl_idname <$> nodes t
  = [ShaderNodeBsdfPrincipled; ShaderNodeOutputMaterial;
     ShaderNodeTexCoord; ShaderNodeMapping] /\
  links t = [mkLink 2 (SName "UV") 3 (SName "Vector");
             mkLink surface (SName "BSDF") 1 (SName "Surface")] /\
  samplers t = [] /\
  links_into t surface = [] /\
  image <$> nodes t = [None; None; None; None].
Proof.
  unfold_material_tree.
  split_on_name mat; cbn [orb]; repeat split; vm_compute; reflexivity.
Qed.

Lemma material_tree_surface mat tx :
  bl_idname <$> nodes (material_tree mat tx) !! surface
  = Some ShaderNodeBsdfPrincipled.
Proof.
  destruct tx as [[b|] [n|] [r|] [m|]]; unfold_material_tree.
  all: split_on_name mat; cbn [orb].
  all: vm_compute; reflexivity.
Qed.

(* ===================================================================== *)
(** * Claims on material processing *)
(* ===================================================================== *)

Lemma slots_bound_ring s :
  is_Some (materials s !! "Gold Metal") -> slots_bound ring s.
Proof.
  intros H mat Hin. unfold ring in Hin; cbn in Hin.
  apply elem_of_cons in Hin as [[= ->]|Hin]; [done|].
  apply elem_of_cons in Hin as [[=]|Hin]. by apply elem_of_nil in Hin.
Qed.

(** C1.  For every material whose name contains "gold" in some letter
    case, material processing leaves metallic 1.0 and roughness 0.2 on the
    surface node, whatever textures load.  The rule table is tested top to
    bottom and the first match wins: such a name classifies as gold, also
    when it contains "metal" and the silver rule matches it too. *)
Theorem gold_is_classified_first (obj : Object) (s : Bpy) (mat : string) :
  slots_bound obj s ->
  Some mat ∈ material_slots obj ->
  contains_in_any_case "gold" mat ->
  classify mat = gold_rule /\
  (contains_in_any_case "metal" mat -> matches mat silver_rule = true) /\
  exists s' m,
    process_materials obj s = (Ok tt, s') /\
    materials s' !! mat = Some m /\
    bl_idname <$> nodes (node_tree m) !! surface = Some ShaderNodeBsdfPrincipled /\
    default_value (node_tree m) surface "Metallic" = Some 1.0%Q /\
    default_value (node_tree m) surface "Roughness" = Some 0.2%Q.
Proof.
  intros Hb Hin Hgold%contains_in_any_case_lower.
  assert (classify mat = gold_rule) as Hc.
  { unfold classify, rule_table, first_match, matches. cbn [keywords gold_rule existsb].
    by rewrite Hgold. }
  split; [done|]. split.
  { intros Hmetal%contains_in_any_case_lower.
    unfold matches. cbn [keywords silver_rule existsb].
    rewrite Hmetal. by rewrite !orb_true_r. }
  destruct (process_materials_run obj s Hb) as (tx & s' & Hrun & _ & _ & _ & Hm).
  specialize (Hm mat). rewrite decide_True in Hm by done.
  exists s', (mkMaterial true (material_tree mat tx)).
  split; [done|]. split; [done|]. cbn [node_tree].
  split; [apply material_tree_surface|].
  pose proof (surface_settings mat tx) as (HM & HR & _).
  rewrite Hc in HM, HR. done.
Qed.

Lemma gold_is_classified_first_witness :
  slots_bound ring textured_host /\
  Some "Gold Metal" ∈ material_slots ring /\
  contains_in_any_case "gold" "Gold Metal" /\
  classify "Gold Metal" = gold_rule /\
  (contains_in_any_case "metal" "Gold Metal" ->
   matches "Gold Metal" silver_rule = true) /\
  exists s' m,
    process_materials ring textured_host = (Ok tt, s') /\
    materials s' !! "Gold Metal" = Some m /\
    bl_idname <$> nodes (node_tree m) !! surface = Some ShaderNodeBsdfPrincipled /\
    default_value (node_tree m) surface "Metallic" = Some 1.0%Q /\
    default_value (node_tree m) surface "Roughness" = Some 0.2%Q.
Proof.
  assert (slots_bound ring textured_host) as Hb.
  { apply slots_bound_ring. vm_compute. eauto. }
  assert (Some "Gold Metal" ∈ material_slots ring) as Hin.
  { unfold ring; cbn. left. }
  assert (contains_in_any_case "gold" "Gold Metal") as Hg.
  { exists "", "Gold", " Metal". split; reflexivity. }
  split; [exact Hb|]. split; [exact Hin|]. split; [exact Hg|].
  exact (gold_is_classified_first ring textured_host "Gold Metal" Hb Hin Hg).
Defined.

Lemma nothing_loads_bare_host : nothing_loads bare_host.
Proof.
  intros ch i Hin. unfold channels in Hin.
  repeat (apply elem_of_cons in Hin as [->|Hin]; [by vm_compute|]).
  by apply elem_of_nil in Hin.
Qed.

(** C4.  When no texture channel loads, every material that is processed
    gets a tree with no image texture node: it holds the surface node, the
    output node, the coordinate source and the mapping node, no node holds
    an image, no link ends in an input of the surface node, and the
    metallic and roughness inputs carry the values of the material's
    class.  No image is loaded or retagged. *)
Theorem no_textures_no_samplers (obj : Object) (s : Bpy) (mat : string) :
  slots_bound obj s ->
  nothing_loads s ->
  Some mat ∈ material_slots obj ->
  exists s' m,
    process_materials obj s = (Ok tt, s') /\
    materials s' !! mat = Some m /\
    samplers (node_tree m) = [] /\
    bl_idname <$> nodes (node_tree m)
    = [ShaderNodeBsdfPrincipled; ShaderNodeOutputMaterial;
       ShaderNodeTexCoord; ShaderNodeMapping] /\
    Forall (fun nd => image nd = None) (nodes (node_tree m)) /\
    links_into (node_tree m) surface = [] /\
    default_value (node_tree m) surface "Metallic" = Some (metallic (classify mat)) /\
    default_value (node_tree m) surface "Roughness" = Some (roughness (classify mat)) /\
    images s' = images s.
Proof.
  intros Hb Hn Hin.
  destruct (process_materials_run obj s Hb) as (tx & s' & Hrun & _ & _ & Hno & Hm).
  destruct (Hno Hn) as [-> Himgs].
  specialize (Hm mat). rewrite decide_True in Hm by done.
  exists s', (mkMaterial true (material_tree mat no_textures)).
  split; [done|]. split; [done|]. cbn [node_tree].
  pose proof (material_tree_no_textures mat) as (Hty & _ & Hs & Hl & Hi).
  pose proof (surface_settings mat no_textures) as (HM & HR & _).
  cbn zeta in *.
  split; [done|]. split; [done|]. split; [|done].
  apply Forall_forall. intros nd Hnd.
  apply (list_elem_of_fmap_2 image) in Hnd. rewrite Hi in Hnd.
  revert Hnd. generalize (image nd). intros o Ho.
  repeat (apply elem_of_cons in Ho as [->|Ho]; [done|]).
  by apply elem_of_nil in Ho.
Qed.

Lemma no_textures_no_samplers_witness :
  slots_bound ring bare_host /\
  nothing_loads bare_host /\
  Some "Gold Metal" ∈ material_slots ring /\
  exists s' m,
    process_materials ring bare_host = (Ok tt, s') /\
    materials s' !! "Gold Metal" = Some m /\
    samplers (node_tree m) = [] /\
    bl_idname <$> nodes (node_tree m)
    = [ShaderNodeBsdfPrincipled; ShaderNodeOutputMaterial;
       ShaderNodeTexCoord; ShaderNodeMapping] /\
    Forall (fun nd => image nd = None) (nodes (node_tree m)) /\
    links_into (node_tree m) surface = [] /\
    default_value (node_tree m) surface "Metallic"
    = Some (metallic (classify "Gold Metal")) /\
    default_value (node_tree m) surface "Roughness"
    = Some (roughness (classify "Gold Metal")) /\
    images s' = images bare_host.
Proof.
  assert (slots_bound ring bare_host) as Hb.
  { apply slots_bound_ring. vm_compute. eauto. }
  assert (Some "Gold Metal" ∈ material_slots ring) as Hin.
  { unfold ring; cbn. left. }
  split; [exact Hb|]. split; [exact nothing_loads_bare_host|]. split; [exact Hin|].
  exact (no_textures_no_samplers ring bare_host "Gold Metal" Hb
           nothing_loads_bare_host Hin).
Defined.

Lemma elem_of_sampler_links t l nd :
  l ∈ links t -> nodes t !! from_node l = Some nd ->
  bl_idname nd = ShaderNodeTexImage ->
  (image nd, to_socket l) ∈ sampler_links t.
Proof.
  intros Hl Hnd Hty. unfold sampler_links.
  apply list_elem_of_omap. exists l. split; [done|].
  rewrite Hnd. cbn. by rewrite decide_True.
Qed.

Lemma expected_sampler_links_tagged imgs tx i input :
  well_tagged imgs tx ->
  (Some i, input) ∈ expected_sampler_links tx ->
  colorspace <$> imgs !! i = Some (declared_tag input).
Proof.
  intros (Hb & Hn & Hr & Hm). unfold expected_sampler_links, wired.
  rewrite !elem_of_app.
  destruct tx as [b n r m]; cbn [base_color_map normal_map roughness_map metallic_map] in *.
  intros [H|[H|[H|H]]].
  - destruct b as [j|]; [|by apply elem_of_nil in H].
    apply list_elem_of_singleton in H as [= -> ->]. by rewrite (Hb j).
  - destruct n as [j|]; [|by apply elem_of_nil in H].
    apply list_elem_of_singleton in H as [= -> ->]. by rewrite (Hn j).
  - destruct r as [j|]; [|by apply elem_of_nil in H].
    apply list_elem_of_singleton in H as [= -> ->]. by rewrite (Hr j).
  - destruct m as [j|]; [|by apply elem_of_nil in H].
    apply list_elem_of_singleton in H as [= -> ->]. by rewrite (Hm j).
Qed.

(** C9.  In every material that is processed, a link that leaves an image
    texture node comes from a texture with its declared tag: the image
    behind the base color input is tagged ['sRGB'], the images behind the
    normal, roughness and metallic inputs are tagged ['Non-Color']. *)
Theorem wired_textures_carry_declared_tag (obj : Object) (s : Bpy) (mat : string) :
  slots_bound obj s ->
  Some mat ∈ material_slots obj ->
  exists s' m,
    process_materials obj s = (Ok tt, s') /\
    materials s' !! mat = Some m /\
    forall l nd i,
      l ∈ links (node_tree m) ->
      nodes (node_tree m) !! from_node l = Some nd ->
      bl_idname nd = ShaderNodeTexImage ->
      image nd = Some i ->
      colorspace <$> images s' !! i = Some (declared_tag (to_socket l)).
Proof.
  intros Hb Hin.
  destruct (process_materials_run obj s Hb) as (tx & s' & Hrun & _ & Hw & _ & Hm).
  specialize (Hm mat). rewrite decide_True in Hm by done.
  exists s', (mkMaterial true (material_tree mat tx)).
  split; [done|]. split; [done|]. cbn [node_tree].
  intros l nd i Hl Hnd Hty Hi.
  pose proof (elem_of_sampler_links _ _ _ Hl Hnd Hty) as Hs.
  rewrite material_tree_sampler_links, Hi in Hs.
  by apply (expected_sampler_links_tagged _ tx).
Qed.

Lemma wired_textures_carry_declared_tag_witness :
  slots_bound ring textured_host /\
  Some "Gold Metal" ∈ material_slots ring /\
  exists s' m,
    process_materials ring textured_host = (Ok tt, s') /\
    materials s' !! "Gold Metal" = Some m /\
    forall l nd i,
      l ∈ links (node_tree m) ->
      nodes (node_tree m) !! from_node l = Some nd ->
      bl_idname nd = ShaderNodeTexImage ->
      image nd = Some i ->
      colorspace <$> images s' !! i = Some (declared_tag (to_socket l)).
Proof.
  assert (slots_bound ring textured_host) as Hb.
  { apply slots_bound_ring. vm_compute. eauto. }
  assert (Some "Gold Metal" ∈ material_slots ring) as Hin.
  { unfold ring; cbn. left. }
  split; [exact Hb|]. split; [exact Hin|].
  exact (wired_textures_carry_declared_tag ring textured_host "Gold Metal" Hb Hin).
Defined.

(** With only the base color on disk, the ring's material gets exactly one
    texture link, into the base color input, from an image tagged
    ['sRGB']. *)
Example base_color_only :
  let s' := snd (process_materials ring textured_host) in
  (fun m => sampler_links (node_tree m)) <$> materials s' !! "Gold Metal"
  = Some [(Some 0, SName "Base Color")] /\
  images s' = [mkImage (texture_path "albedo") "sRGB"].
Proof. split; vm_compute; reflexivity. Qed.

(** C10.  For every object, material processing returns without an error;
    a slot with no material is passed over with nothing changed, the
    objects of the scene with their slots stay as they were, and every
    material named by one of the other slots gets its tree, whichever
    slots around it are empty. *)
Theorem null_slots_are_skipped (obj : Object) (s : Bpy) :
  slots_bound obj s ->
  (forall tx s0, process_slot tx None s0 = (Ok tt, s0)) /\
  exists tx s',
    process_materials obj s = (Ok tt, s') /\
    objects s' = objects s /\
    (forall mat, Some mat ∈ material_slots obj ->
       materials s' !! mat = Some (mkMaterial true (material_tree mat tx))) /\
    (forall mat, Some mat ∉ material_slots obj ->
       materials s' !! mat = materials s !! mat).
Proof.
  intros Hb. split; [done|].
  destruct (process_materials_run obj s Hb) as (tx & s' & Hrun & Hf & _ & _ & Hm).
  exists tx, s'. split; [done|]. split; [rewrite Hf; by destruct s|].
  split; intros mat Hin; rewrite Hm.
  - by rewrite decide_True.
  - by rewrite decide_False.
Qed.

Lemma null_slots_are_skipped_witness :
  slots_bound ring bare_host /\
  None ∈ material_slots ring /\
  (forall tx s0, process_slot tx None s0 = (Ok tt, s0)) /\
  exists tx s',
    process_materials ring bare_host = (Ok tt, s') /\
    objects s' = objects bare_host /\
    (forall mat, Some mat ∈ material_slots ring ->
       materials s' !! mat = Some (mkMaterial true (material_tree mat tx))) /\
    (forall mat, Some mat ∉ material_slots ring ->
       materials s' !! mat = materials bare_host !! mat).
Proof.
  assert (slots_bound ring bare_host) as Hb.
  { apply slots_bound_ring. vm_compute. eauto. }
  split; [exact Hb|]. split; [unfold ring; cbn; right; left|].
  exact (null_slots_are_skipped ring bare_host Hb).
Defined.

(* ===================================================================== *)
(** * The world tree *)
(* ===================================================================== *)

Lemma bind_on_tree {T S A B} (f : T -> A * T) (k : A -> Py (T * S) B) t s :
  bind (on_tree f) k (t, s) = k (fst (f t)) (snd (f t), s).
Proof. unfold bind, on_tree. cbn. by destruct (f t). Qed.

Lemma bind_lift {T S A B} (c : Py S A) (k : A -> Py (T * S) B) (t : T) s :
  bind (lift c) k (t, s)
  = match c s with
    | (Ok a, s') => k a (t, s')
    | (Raise e, s') => (Raise e, (t, s'))
    end.
Proof. unfold bind, lift. cbn. by destruct (c s) as [[a|e] s']. Qed.

Lemma alter_last {A} (f : A -> A) (l : list A) x :
  alter f (length l) (l ++ [x]) = l ++ [f x].
Proof. induction l as [|y l IH]; cbn; [done | by rewrite IH]. Qed.

Lemma build_world_loaded hdri_path t s :
  files s !! hdri_path = Some ImageFile ->
  build_world hdri_path (t, s)
  = (Ok tt,
     (loaded_world_tree (length (images s)),
      with_images (images s ++ [mkImage hdri_path "Filmic sRGB"]) s)).
Proof.
  intros Hf. unfold build_world, new.
  rewrite !bind_on_tree. cbv beta.
  unfold bind at 1, try_except at 1. rewrite bind_lift.
  rewrite (images_load_new hdri_path s false) by done.
  pose proof (alter_last (fun im => mkImage (filepath im) "Filmic sRGB")
                (images s) (mkImage hdri_path loaded_colorspace)) as Ha.
  cbn [filepath] in Ha. rewrite <- Ha. clear Ha.
  destruct s. vm_compute. reflexivity.
Qed.

(** Where the panorama does not load, the handler prints the warning,
    clears the image and raises at the color: nothing after the handler
    runs, and the tree is left with the environment texture node alone. *)
Lemma build_world_fallback hdri_path t s :
  files s !! hdri_path <> Some ImageFile ->
  build_world hdri_path (t, s)
  = (Raise color_error,
     (fallback_world_tree, with_stdout (stdout s ++ [hdri_warning hdri_path]) s)).
Proof.
  intros Hf. unfold build_world, new.
  rewrite !bind_on_tree. cbv beta.
  unfold bind at 1, try_except at 1. rewrite bind_lift.
  erewrite (images_load_fails hdri_path s false) by done.
  destruct s. vm_compute. reflexivity.
Qed.

Ltac run_setup_hdri :=
  unfold setup_hdri, bind, get, modify, in_world, pass, ret;
  cbn [world with_world option_map truthy use_nodes node_tree files images stdout].

(** With a panorama that loads, [setup_hdri] builds the whole world tree
    and then raises at the studio light of line 134. *)
Lemma setup_hdri_loaded hdri_path s :
  files s !! hdri_path = Some ImageFile ->
  setup_hdri hdri_path s
  = (Raise studio_light_error,
     with_world (Some (mkMaterial true (loaded_world_tree (length (images s)))))
       (with_images (images s ++ [mkImage hdri_path "Filmic sRGB"]) s)).
Proof.
  intros Hf. destruct s as [fs ro off imgs mats objs act lts cams [w|] cl out].
  all: run_setup_hdri; rewrite build_world_loaded by exact Hf.
  all: vm_compute; reflexivity.
Qed.

Lemma setup_hdri_fallback hdri_path s :
  files s !! hdri_path <> Some ImageFile ->
  setup_hdri hdri_path s
  = (Raise color_error,
     with_world (Some (mkMaterial true fallback_world_tree))
       (with_stdout (stdout s ++ [hdri_warning hdri_path]) s)).
Proof.
  intros Hf. destruct s as [fs ro off imgs mats objs act lts cams [w|] cl out].
  all: run_setup_hdri; rewrite build_world_fallback by exact Hf.
  all: vm_compute; reflexivity.
Qed.

Lemma world_trees_topology i :
  topology (loaded_world_tree i) = world_topology /\
  topology fallback_world_tree = lone_env_tex.
Proof. split; vm_compute; reflexivity. Qed.

Lemma world_trees_env_tex i :
  nodes (loaded_world_tree i) !! env_tex
  = Some (mkNode ShaderNodeTexEnvironment (Some i) (-600, 200)%Z None None ∅) /\
  nodes fallback_world_tree
  = [mkNode ShaderNodeTexEnvironment None (0, 0)%Z None None ∅].
Proof. split; vm_compute; reflexivity. Qed.

(** C7.  The code misses the fallback.  On a host whose panorama file is
    on disk and does not load, the handler of [setup_hdri] prints the
    warning, clears the image and then writes four components to the color
    of the environment texture node, which takes three: the write raises
    inside the handler, [setup_hdri] ends with that exception, and the
    world tree is left with the environment texture node alone, without a
    link and without the fallback color, where the tree around a panorama
    that loads has the seven nodes and six links of [world_topology]. *)
Theorem fallback_loses_the_topology :
  exists s' w,
    setup_hdri hdri_path broken_panorama_host = (Raise color_error, s') /\
    world s' = Some w /\
    topology (node_tree w) = lone_env_tex /\
    topology (node_tree w) <> world_topology /\
    color <$> nodes (node_tree w) !! env_tex = Some None /\
    stdout s' = [hdri_warning hdri_path] /\
    forall i, topology (loaded_world_tree i) = world_topology.
Proof.
  assert (files broken_panorama_host !! hdri_path <> Some ImageFile) as Hf.
  { vm_compute. discriminate. }
  rewrite (setup_hdri_fallback _ _ Hf). eexists _, _.
  split; [reflexivity|]. split; [reflexivity|]. cbn [node_tree].
  split; [exact (proj2 (world_trees_topology 0))|].
  split; [rewrite (proj2 (world_trees_topology 0)); discriminate|].
  split; [by rewrite (proj2 (world_trees_env_tex 0))|].
  split; [reflexivity|].
  intros i. exact (proj1 (world_trees_topology i)).
Qed.

(* ===================================================================== *)
(** * One turn of the object loop *)
(* ===================================================================== *)

Lemma normalize_object_unfold i s :
  normalize_object i s
  = let s1 :=
      with_calls (calls s ++ tag_calls (Some i) calls_before_materials)
        (with_objects (objects_before_materials i (objects s))
           (with_active (Some i) s)) in
    match objects s1 !! i with
    | None => (Raise (ReferenceError "Object"), s1)
    | Some obj =>
        match process_materials obj s1 with
        | (Ok _, s2) =>
            (Ok tt,
             with_calls (calls s2 ++ tag_calls (active s2)
                                       (calls_after_materials (has_faces obj)))
               (with_objects
                  (alter (select_set false) i
                    (imap (fun _ o => set_editing false o)
                      ((fun o => if editing o then set_normals_outward true o else o) <$>
                        imap (fun j o => set_editing
                                 (selected o || bool_decide (active s2 = Some j)) o)
                          (if has_faces obj then
                             alter (set_auto_smooth_angle 1.0472) i
                               (alter (set_use_auto_smooth true) i
                                 (when_selected (set_shaded_smooth true) <$> objects s2))
                           else objects s2)))) s2))
        | (Raise e, s2) => (Raise e, s2)
        end
    end.
Proof.
  destruct s as [fs ro off imgs mats objs act lts cams w cl out].
  unfold normalize_object, bind, modify, update_object, record, get, raise,
    Ops.transform_apply, Ops.origin_set, on_selected, bind, modify, record.
  cbn -[process_materials objects_before_materials].
  fold (objects_before_materials i objs).
  unfold tag_calls, calls_before_materials. cbn [fmap list_fmap app].
  rewrite <- !app_assoc. cbn [app].
  destruct (objects_before_materials i objs !! i) as [obj|]; [|reflexivity].
  destruct (process_materials obj _) as [[[]|e] s2]; [|reflexivity].
  unfold has_faces, calls_after_materials.
  destruct (bool_decide (polygons obj ≠ 0%nat)).
  - destruct s2. cbn. rewrite <- !app_assoc. reflexivity.
  - destruct s2. cbn. rewrite <- !app_assoc. reflexivity.
Qed.

Lemma objects_before_lookup i (objs : list Object) j :
  objects_before_materials i objs !! j
  = before_one (bool_decide (i = j)) <$> objs !! j.
Proof.
  unfold objects_before_materials.
  destruct (decide (i = j)) as [->|Hne].
  - rewrite bool_decide_eq_true_2 by done.
    rewrite list_lookup_alter_eq, !list_lookup_fmap, !list_lookup_alter_eq.
    destruct (objs !! j) as [[]|]; reflexivity.
  - rewrite bool_decide_eq_false_2 by done.
    rewrite list_lookup_alter_ne, !list_lookup_fmap, !list_lookup_alter_ne by done.
    destruct (objs !! j) as [[]|]; reflexivity.
Qed.

Lemma objects_after_lookup i faces (objs : list Object) j :
  objects_after_materials i faces objs !! j
  = after_one faces (bool_decide (i = j)) <$> objs !! j.
Proof.
  unfold objects_after_materials.
  destruct (decide (i = j)) as [->|Hne].
  - rewrite bool_decide_eq_true_2 by done.
    rewrite list_lookup_alter_eq, list_lookup_imap, list_lookup_fmap, list_lookup_imap.
    destruct faces.
    + rewrite !list_lookup_alter_eq, list_lookup_fmap.
      destruct (objs !! j) as [[]|]; [|done]. cbn [fmap option_fmap option_map].
      rewrite bool_decide_eq_true_2 by done. reflexivity.
    + destruct (objs !! j) as [o|]; [|done]. cbn.
      by rewrite bool_decide_eq_true_2 by done.
  - rewrite bool_decide_eq_false_2 by done.
    rewrite list_lookup_alter_ne, list_lookup_imap, list_lookup_fmap, list_lookup_imap
      by done.
    destruct faces.
    + rewrite !list_lookup_alter_ne, list_lookup_fmap by done.
      destruct (objs !! j) as [[]|]; [|done]. cbn [fmap option_fmap option_map].
      rewrite bool_decide_eq_false_2 by congruence. reflexivity.
    + destruct (objs !! j) as [o|]; [|done]. cbn.
      by rewrite bool_decide_eq_false_2 by congruence.
Qed.

Lemma before_one_same_mesh mine o : same_mesh o (before_one mine o).
Proof. by destruct o as [? ? ? ? []], mine. Qed.

Lemma after_one_same_mesh faces mine o : same_mesh o (after_one faces mine o).
Proof. by destruct o as [? ? ? ? [] []], faces, mine. Qed.

Lemma turn_normalizes_mine faces o :
  let o' := after_one faces true (before_one true o) in
  transform o' = identity_at_origin /\ selected o' = false.
Proof. by destruct o as [? ? ? ? [] []], faces. Qed.

Lemma turn_keeps_selection faces o :
  selected (after_one faces false (before_one false o)) = selected o.
Proof. by destruct o as [? ? ? ? [] []], faces. Qed.

Lemma turn_keeps_deselected faces o :
  selected o = false ->
  transform (after_one faces false (before_one false o)) = transform o.
Proof. destruct o as [? ? ? ? [] []], faces; cbn; by intros. Qed.

Lemma has_faces_same_mesh o o' : same_mesh o o' -> has_faces o' = has_faces o.
Proof. unfold has_faces. by intros (_ & -> & _). Qed.

Lemma slots_bound_same_mesh o o' s s' :
  same_mesh o o' ->
  (forall k, is_Some (materials s !! k) -> is_Some (materials s' !! k)) ->
  slots_bound o s -> slots_bound o' s'.
Proof.
  intros (_ & _ & Hs) Hk Hb mat Hin. apply Hk, Hb. by rewrite <- Hs.
Qed.

(** One turn of the loop on a bound object: it returns, it records the
    calls of the turn, and it leaves each object of the scene as
    [before_one] and [after_one] make it. *)
Lemma normalize_object_run i s obj :
  objects s !! i = Some obj ->
  slots_bound obj s ->
  exists s',
    normalize_object i s = (Ok tt, s') /\
    calls s' = calls s ++ turn_calls i obj /\
    (forall j, objects s' !! j
               = (fun o => after_one (has_faces obj) (bool_decide (i = j))
                             (before_one (bool_decide (i = j)) o))
                 <$> objects s !! j) /\
    (forall k, is_Some (materials s !! k) -> is_Some (materials s' !! k)) /\
    files s' = files s /\ read_only s' = read_only s /\ offline s' = offline s /\
    world s' = world s.
Proof.
  intros Hi Hb. rewrite normalize_object_unfold. cbn zeta.
  set (s1 := with_calls _ _).
  assert (objects s1 = objects_before_materials i (objects s)) as Ho1 by (by destruct s).
  rewrite Ho1, objects_before_lookup, Hi, bool_decide_eq_true_2 by done.
  cbn [fmap option_fmap option_map].
  set (obj1 := before_one true obj).
  pose proof (before_one_same_mesh true obj) as Hsame. fold obj1 in Hsame.
  assert (slots_bound obj1 s1) as Hb1.
  { eapply slots_bound_same_mesh; [exact Hsame| |exact Hb]. by destruct s. }
  destruct (process_materials_run obj1 s1 Hb1)
    as (tx & s2 & -> & Hframe & _ & _ & Hmats).
  rewrite (has_faces_same_mesh _ _ Hsame).
  assert (active s2 = Some i /\ objects s2 = objects s1 /\ calls s2 = calls s1 /\
          files s2 = files s /\ read_only s2 = read_only s /\
          offline s2 = offline s /\ world s2 = world s) as (Ha & Ho & Hc & Hfs & Hro & Hoff & Hw).
  { rewrite Hframe. by destruct s. }
  eexists. split; [reflexivity|].
  split.
  { cbn [calls with_calls]. rewrite Ha, Hc. subst s1; destruct s; cbn.
    unfold turn_calls, tag_calls. by rewrite <- app_assoc. }
  split.
  { intros j. cbn [objects with_objects with_calls]. rewrite Ha, Ho, Ho1.
    fold (objects_after_materials i (has_faces obj)
            (objects_before_materials i (objects s))).
    rewrite objects_after_lookup, objects_before_lookup.
    by destruct (objects s !! j). }
  split.
  { intros k Hk. cbn [materials with_objects with_calls]. rewrite Hmats.
    case_decide; [eauto|]. by destruct s. }
  by destruct s2.
Qed.

(* ===================================================================== *)
(** * The object loop *)
(* ===================================================================== *)

Lemma same_mesh_refl o : same_mesh o o.
Proof. done. Qed.

Lemma same_mesh_trans o1 o2 o3 : same_mesh o1 o2 -> same_mesh o2 o3 -> same_mesh o1 o3.
Proof. intros (? & ? & ?) (? & ? & ?). repeat split; congruence. Qed.

Lemma Forall2_same_mesh_trans l1 l2 l3 :
  Forall2 same_mesh l1 l2 -> Forall2 same_mesh l2 l3 -> Forall2 same_mesh l1 l3.
Proof.
  intros H12. revert l3. induction H12; intros l3 H23; inversion H23; subst;
    constructor; eauto using same_mesh_trans.
Qed.

Lemma lookup_fmap_Forall2 (l l' : list Object) (h : nat -> Object -> Object) :
  (forall j, l' !! j = h j <$> l !! j) ->
  (forall j o, same_mesh o (h j o)) ->
  Forall2 same_mesh l l'.
Proof.
  intros Hl Hh. apply Forall2_lookup. intros j. rewrite Hl.
  destruct (l !! j); constructor. apply Hh.
Qed.

Lemma turn_calls_same_mesh i o o' : same_mesh o o' -> turn_calls i o' = turn_calls i o.
Proof. intros H. unfold turn_calls. by rewrite (has_faces_same_mesh _ _ H). Qed.

Lemma loop_calls_cons k o objs :
  loop_calls k (o :: objs) = turn_calls k o ++ loop_calls (S k) objs.
Proof.
  unfold loop_calls. rewrite imap_cons. cbn [mjoin list_join].
  rewrite Nat.add_0_r. do 2 f_equal.
  apply imap_ext. intros j ? _. unfold compose. f_equal. lia.
Qed.

Lemma loop_calls_same_mesh k l l' :
  Forall2 same_mesh l l' -> loop_calls k l' = loop_calls k l.
Proof.
  intros H. revert k. induction H as [|o o' l l' Ho _ IH]; intros k; [done|].
  by rewrite !loop_calls_cons, IH, (turn_calls_same_mesh _ _ _ Ho).
Qed.

Lemma normalize_loop_run n : forall k s,
  scene_bound s ->
  k + n = length (objects s) ->
  normalized_upto k (objects s) ->
  exists s',
    for_each (seq k n) normalize_object s = (Ok tt, s') /\
    Forall2 same_mesh (objects s) (objects s') /\
    normalized_upto (k + n) (objects s') /\
    calls s' = calls s ++ loop_calls k (drop k (objects s)) /\
    (forall m, is_Some (materials s !! m) -> is_Some (materials s' !! m)) /\
    files s' = files s /\ read_only s' = read_only s /\ offline s' = offline s /\
    world s' = world s.
Proof.
  induction n as [|n IH]; intros k s Hb Hlen Hnorm.
  { exists s. split; [done|]. split; [by apply Forall_Forall2_diag, Forall_true|].
    rewrite Nat.add_0_r in *. split; [done|].
    rewrite drop_ge by lia. unfold loop_calls. cbn. by rewrite app_nil_r. }
  destruct (lookup_lt_is_Some_2 (objects s) k) as [obj Hk]; [lia|].
  assert (slots_bound obj s) as Hbo.
  { apply Hb. by eapply list_elem_of_lookup_2. }
  destruct (normalize_object_run k s obj Hk Hbo)
    as (s1 & Hrun & Hcalls & Hobjs & Hmats & Hfs & Hro & Hoff & Hw).
  assert (Forall2 same_mesh (objects s) (objects s1)) as Hsame.
  { eapply lookup_fmap_Forall2; [exact Hobjs|].
    intros j o. eapply same_mesh_trans;
      [apply before_one_same_mesh | apply after_one_same_mesh]. }
  assert (scene_bound s1) as Hb1.
  { intros o' Hin. apply list_elem_of_lookup_1 in Hin as [j Hj].
    rewrite Hobjs in Hj. destruct (objects s !! j) as [o|] eqn:Ho; [|done].
    injection Hj as <-.
    eapply slots_bound_same_mesh; [| exact Hmats | apply Hb; by eapply list_elem_of_lookup_2].
    eapply same_mesh_trans; [apply before_one_same_mesh | apply after_one_same_mesh]. }
  assert (normalized_upto (S k) (objects s1)) as Hnorm1.
  { intros j o' Hj Hlook. rewrite Hobjs in Hlook.
    destruct (objects s !! j) as [o|] eqn:Ho; [|done]. injection Hlook as <-.
    destruct (decide (k = j)) as [->|Hne].
    - rewrite bool_decide_eq_true_2 by done. apply turn_normalizes_mine.
    - rewrite bool_decide_eq_false_2 by done.
      destruct (Hnorm j o) as [Ht Hs]; [lia | done |].
      rewrite turn_keeps_selection, turn_keeps_deselected; done. }
  destruct (IH (S k) s1 Hb1) as (s' & Hloop & Hsame' & Hnorm' & Hcalls' & Hmats' & Hfs' & Hro' & Hoff' & Hw');
    [apply Forall2_length in Hsame; lia | exact Hnorm1 |].
  exists s'. split.
  { cbn [seq for_each]. unfold bind. by rewrite Hrun. }
  split; [by eapply Forall2_same_mesh_trans|].
  split; [by rewrite Nat.add_succ_r|].
  split.
  { rewrite Hcalls', Hcalls, <- app_assoc. f_equal.
    rewrite (drop_S _ _ _ Hk), loop_calls_cons. f_equal.
    apply loop_calls_same_mesh. by apply Forall2_drop. }
  split; [eauto|]. repeat split; congruence.
Qed.

(* ===================================================================== *)
(** * Claims on the normalizer *)
(* ===================================================================== *)

Lemma stages_of_app i cs cs' :
  stages_of i (cs ++ cs') = stages_of i cs ++ stages_of i cs'.
Proof. apply omap_app. Qed.

Lemma stages_of_turn i k o :
  stages_of i (turn_calls k o) = if decide (k = i) then turn_stages o else [].
Proof.
  unfold turn_calls, turn_stages, calls_after_materials.
  destruct (decide (k = i)) as [->|Hne], (has_faces o); cbn.
  1,2: by rewrite !decide_True by done.
  all: by rewrite !decide_False by congruence.
Qed.

Lemma stages_of_loop i objs : forall k,
  stages_of i (loop_calls k objs)
  = if decide (k <= i) then from_option turn_stages [] (objs !! (i - k)) else [].
Proof.
  induction objs as [|o objs IH]; intros k.
  { unfold loop_calls. cbn. by case_decide. }
  rewrite loop_calls_cons, stages_of_app, stages_of_turn, IH.
  destruct (decide (k = i)) as [->|Hne].
  - rewrite decide_False, decide_True, Nat.sub_diag by lia. apply app_nil_r.
  - destruct (decide (k <= i)) as [Hle|Hgt].
    + rewrite decide_True by lia.
      replace (i - k) with (S (i - S k)) by lia. done.
    + by rewrite decide_False by lia.
Qed.

Lemma calls_since_app s s' new : calls s' = calls s ++ new -> calls_since s s' = new.
Proof. unfold calls_since. intros ->. by rewrite drop_app_length. Qed.

Lemma forward_turn_stages o : forward (turn_stages o).
Proof. unfold turn_stages. destruct (has_faces o); cbn; lia. Qed.

Lemma normalize_all_run s :
  scene_bound s ->
  exists s',
    normalize_all s = (Ok tt, s') /\
    Forall2 same_mesh (objects s) (objects s') /\
    normalized_upto (length (objects s')) (objects s') /\
    calls s' = calls s ++ loop_calls 0 (objects s) /\
    scene_bound s'.
Proof.
  intros Hb.
  destruct (normalize_loop_run (length (objects s)) 0 s Hb)
    as (s' & Hrun & Hsame & Hnorm & Hcalls & Hmats & _); [done | |].
  { intros j o Hj. lia. }
  exists s'. split; [exact Hrun|]. split; [exact Hsame|].
  split; [by rewrite <- (Forall2_length _ _ _ Hsame)|]. split; [exact Hcalls|].
  intros o' Hin. apply list_elem_of_lookup_1 in Hin as [j Hj].
  destruct (Forall2_lookup_r _ _ _ _ _ Hsame Hj) as (o & Ho & Hoo).
  eapply slots_bound_same_mesh; [exact Hoo | exact Hmats |].
  apply Hb. by eapply list_elem_of_lookup_2.
Qed.

(** C5.  For every mesh of the scene, the calls the loop makes while the
    mesh is the active object carry out the stages in the order
    TransformBaked, OriginCentered, Shaded, Smoothed (for a mesh with
    faces), NormalsFixed, each once and none out of order: the transform
    is baked before the origin is centered and before the normals are
    recomputed. *)
Theorem stages_run_in_order (s : Bpy) (i : nat) (obj : Object) :
  scene_bound s ->
  objects s !! i = Some obj ->
  exists s',
    normalize_all s = (Ok tt, s') /\
    stages_of i (calls_since s s')
    = [TransformBaked; OriginCentered; Shaded]
      ++ (if has_faces obj then [Smoothed] else []) ++ [NormalsFixed] /\
    forward (stages_of i (calls_since s s')).
Proof.
  intros Hb Hi.
  destruct (normalize_all_run s Hb) as (s' & Hrun & _ & _ & Hcalls & _).
  exists s'. split; [exact Hrun|].
  rewrite (calls_since_app _ _ _ Hcalls), stages_of_loop.
  rewrite decide_True, Nat.sub_0_r, Hi by lia. cbn [from_option].
  split; [reflexivity | apply forward_turn_stages].
Qed.

Lemma scene_bound_ring_scene : scene_bound ring_scene.
Proof.
  intros obj Hin. unfold ring_scene in Hin; cbn in Hin.
  apply elem_of_cons in Hin as [->|Hin].
  - apply slots_bound_ring. vm_compute. eauto.
  - apply elem_of_cons in Hin as [->|Hin]; [|by apply elem_of_nil in Hin].
    intros mat Hm. change (Some mat ∈ @nil (option string)) in Hm.
    by apply elem_of_nil in Hm.
Qed.

Lemma stages_run_in_order_witness :
  scene_bound ring_scene /\
  objects ring_scene !! 1 = Some gem /\
  exists s',
    normalize_all ring_scene = (Ok tt, s') /\
    stages_of 1 (calls_since ring_scene s')
    = [TransformBaked; OriginCentered; Shaded]
      ++ (if has_faces gem then [Smoothed] else []) ++ [NormalsFixed] /\
    forward (stages_of 1 (calls_since ring_scene s')).
Proof.
  split; [exact scene_bound_ring_scene|]. split; [reflexivity|].
  exact (stages_run_in_order ring_scene 1 gem scene_bound_ring_scene eq_refl).
Defined.

(** C3, as amended.  The turn of a mesh with zero polygons returns without
    an error and leaves the Smoothed stage out: [shade_smooth] is not
    called and the smooth-shading settings of the mesh stay as they were.
    The NormalsFixed stage is not left out: the normals of the mesh are
    recomputed as for any other mesh. *)
Theorem zero_polygons_skip_smoothing_only (s : Bpy) (i : nat) (obj : Object) :
  objects s !! i = Some obj ->
  slots_bound obj s ->
  polygons obj = 0%nat ->
  exists s' obj',
    normalize_object i s = (Ok tt, s') /\
    stages_of i (calls_since s s')
    = [TransformBaked; OriginCentered; Shaded; NormalsFixed] /\
    objects s' !! i = Some obj' /\
    shaded_smooth obj' = shaded_smooth obj /\
    use_auto_smooth obj' = use_auto_smooth obj /\
    auto_smooth_angle obj' = auto_smooth_angle obj /\
    normals_outward obj' = true.
Proof.
  intros Hi Hb Hp.
  destruct (normalize_object_run i s obj Hi Hb) as (s' & Hrun & Hcalls & Hobjs & _).
  assert (has_faces obj = false) as Hf.
  { unfold has_faces. rewrite Hp. reflexivity. }
  exists s', (after_one false true (before_one true obj)).
  split; [exact Hrun|]. split.
  { rewrite (calls_since_app _ _ _ Hcalls), stages_of_turn, decide_True by done.
    unfold turn_stages. by rewrite Hf. }
  split.
  { rewrite Hobjs, Hi, Hf, bool_decide_eq_true_2 by done. reflexivity. }
  by destruct obj as [? ? ? ? [] []].
Qed.

Lemma zero_polygons_skip_smoothing_only_witness :
  objects ring_scene !! 0 = Some ring /\
  slots_bound ring ring_scene /\
  polygons ring = 0%nat /\
  exists s' obj',
    normalize_object 0 ring_scene = (Ok tt, s') /\
    stages_of 0 (calls_since ring_scene s')
    = [TransformBaked; OriginCentered; Shaded; NormalsFixed] /\
    objects s' !! 0 = Some obj' /\
    shaded_smooth obj' = shaded_smooth ring /\
    use_auto_smooth obj' = use_auto_smooth ring /\
    auto_smooth_angle obj' = auto_smooth_angle ring /\
    normals_outward obj' = true.
Proof.
  assert (slots_bound ring ring_scene) as Hb.
  { apply slots_bound_ring. vm_compute. eauto. }
  split; [reflexivity|]. split; [exact Hb|]. split; [reflexivity|].
  exact (zero_polygons_skip_smoothing_only ring_scene 0 ring eq_refl Hb eq_refl).
Defined.

(** C3, the claim as stated fails on the ring, a mesh with zero polygons:
    its turn calls [normals_make_consistent]. *)
Lemma zero_polygon_mesh_gets_normals_fixed :
  ~ skips_smoothing_and_normals_as_specified 0 ring_scene.
Proof.
  intros H. destruct (H ring eq_refl eq_refl) as (s' & Hrun & _ & Hn).
  vm_compute in Hrun. injection Hrun as <-.
  apply Hn. vm_compute. repeat constructor.
Qed.

(** C8.  The loop leaves every mesh of the scene with identity scale and
    rotation and its origin at the world origin, and running it again on
    the result leaves these as they are. *)
Theorem normalize_twice (s : Bpy) :
  scene_bound s ->
  exists s1 s2,
    normalize_all s = (Ok tt, s1) /\
    normalize_all s1 = (Ok tt, s2) /\
    Forall (fun o => transform o = identity_at_origin) (objects s1) /\
    transform <$> objects s2 = transform <$> objects s1.
Proof.
  intros Hb.
  destruct (normalize_all_run s Hb) as (s1 & Hrun1 & _ & Hn1 & _ & Hb1).
  destruct (normalize_all_run s1 Hb1) as (s2 & Hrun2 & Hsame & Hn2 & _ & _).
  exists s1, s2. split; [exact Hrun1|]. split; [exact Hrun2|].
  assert (forall s', normalized_upto (length (objects s')) (objects s') ->
            Forall (fun o => transform o = identity_at_origin) (objects s')) as Hall.
  { intros s' Hn. apply Forall_lookup. intros j o Hj.
    apply (Hn j o); [by eapply lookup_lt_Some | done]. }
  split; [by apply Hall|].
  pose proof (Hall s1 Hn1) as F1. pose proof (Hall s2 Hn2) as F2.
  rewrite Forall_lookup in F1, F2.
  apply list_eq. intros j. rewrite !list_lookup_fmap.
  destruct (objects s1 !! j) as [o1|] eqn:H1.
  - destruct (Forall2_lookup_l _ _ _ _ _ Hsame H1) as (o2 & H2 & _).
    rewrite H2. cbn. by rewrite (F1 j o1 H1), (F2 j o2 H2).
  - apply lookup_ge_None in H1. rewrite (Forall2_length _ _ _ Hsame) in H1.
    apply lookup_ge_None in H1. by rewrite H1.
Qed.

Lemma normalize_twice_witness :
  scene_bound ring_scene /\
  exists s1 s2,
    normalize_all ring_scene = (Ok tt, s1) /\
    normalize_all s1 = (Ok tt, s2) /\
    Forall (fun o => transform o = identity_at_origin) (objects s1) /\
    transform <$> objects s2 = transform <$> objects s1.
Proof.
  split; [exact scene_bound_ring_scene|].
  exact (normalize_twice ring_scene scene_bound_ring_scene).
Defined.

(* ===================================================================== *)
(** * The run over the asset list *)
(* ===================================================================== *)











(** The run on that host: the loop stops at the first of the three assets,
    with the exception [process_model] ends with. *)
Example locked_host_run :
  fst (for_each models process_entry locked_host) = Raise studio_light_error /\
  model_name <$> reached models locked_host = ["ring"] /\
  Forall (fun m => is_Some (files locked_host !! input_glb m)) models.
Proof.
  split; [vm_compute; reflexivity|]. split; [vm_compute; reflexivity|].
  repeat constructor; vm_compute; eauto.
Qed.

(* ===================================================================== *)
(** * Further properties: the scene *)
(* ===================================================================== *)

Lemma filter_fmap_all {A} (P : A -> Prop) `{forall x, Decision (P x)}
    (f : A -> A) (l : list A) :
  (forall x, P (f x)) -> filter P (f <$> l) = f <$> l.
Proof.
  intros Hf. induction l as [|x l IH]; [done|].
  cbn [fmap list_fmap]. rewrite filter_cons_True by apply Hf. by f_equal.
Qed.

Lemma filter_fmap_none {A} (P : A -> Prop) `{forall x, Decision (P x)}
    (f : A -> A) (l : list A) :
  (forall x, ~ P (f x)) -> filter P (f <$> l) = [].
Proof.
  intros Hf. induction l as [|x l IH]; [done|].
  cbn [fmap list_fmap]. by rewrite filter_cons_False by apply Hf.
Qed.

Lemma active_after_delete_all objs a :
  Ops.active_after_delete (select_set true <$> objs) a = None.
Proof.
  destruct a as [i|]; [|done]. unfold Ops.active_after_delete.
  rewrite list_lookup_fmap. by destruct (objs !! i) as [[]|].
Qed.

Lemma select_all_deselect_run fs ro off imgs mats objs act lts cams w cl out :
  Ops.select_all_deselect (mkBpy fs ro off imgs mats objs act lts cams w cl out)
  = (Ok tt,
     mkBpy fs ro off imgs mats (select_set false <$> objs) act
           (set_light_selected false <$> lts)
           ((fun c : string * bool => (fst c, false)) <$> cams) w
           (cl ++ [(act, Op_select_all "DESELECT")]) out).
Proof. reflexivity. Qed.

Lemma select_by_type_run ty fs ro off imgs mats objs act lts cams w cl out :
  Ops.select_by_type ty (mkBpy fs ro off imgs mats objs act lts cams w cl out)
  = (Ok tt,
     mkBpy fs ro off imgs mats (select_set (String.eqb ty "MESH") <$> objs) act
           (set_light_selected (String.eqb ty "LIGHT") <$> lts)
           ((fun c : string * bool => (fst c, String.eqb ty "CAMERA")) <$> cams) w
           (cl ++ [(act, Op_select_by_type ty)]) out).
Proof. reflexivity. Qed.

Lemma delete_run fs ro off imgs mats objs act lts cams w cl out :
  Ops.delete (mkBpy fs ro off imgs mats objs act lts cams w cl out)
  = (Ok tt,
     mkBpy fs ro off imgs mats (filter (fun o => selected o = false) objs)
           (Ops.active_after_delete objs act)
           (filter (fun l => light_selected l = false) lts)
           (filter (fun c : string * bool => snd c = false) cams) w
           (cl ++ [(act, Op_delete)]) out).
Proof. reflexivity. Qed.

Ltac step_with lem := unfold bind at 1; rewrite lem; cbv beta iota.

Lemma clear_scene_run (s : Bpy) : clear_scene s = (Ok tt, emptied s).
Proof.
  destruct s as [fs ro off imgs mats objs act lts cams w cl out].
  unfold clear_scene.
  step_with select_all_deselect_run. step_with select_by_type_run.
  step_with delete_run. step_with select_by_type_run. step_with delete_run.
  step_with select_by_type_run. rewrite delete_run.
  change (String.eqb "MESH" "MESH") with true.
  change (String.eqb "MESH" "LIGHT") with false.
  change (String.eqb "MESH" "CAMERA") with false.
  change (String.eqb "LIGHT" "MESH") with false.
  change (String.eqb "LIGHT" "LIGHT") with true.
  change (String.eqb "LIGHT" "CAMERA") with false.
  change (String.eqb "CAMERA" "MESH") with false.
  change (String.eqb "CAMERA" "LIGHT") with false.
  change (String.eqb "CAMERA" "CAMERA") with true.
  rewrite <- !list_fmap_compose.
  rewrite (filter_fmap_none _ _ objs) by (by intros []).
  rewrite (filter_fmap_all _ _ lts) by (by intros []).
  rewrite (filter_fmap_all _ _ cams) by (by intros []).
  rewrite <- !list_fmap_compose.
  rewrite (filter_fmap_none _ _ lts) by (by intros []).
  rewrite (filter_fmap_all _ _ cams) by (by intros []).
  rewrite <- !list_fmap_compose.
  rewrite (filter_fmap_none _ _ cams) by (by intros []).
  rewrite list_fmap_compose, active_after_delete_all.
  unfold emptied, clear_scene_calls, tag_calls. cbn.
  by rewrite <- !app_assoc.
Qed.

(** X1.  [clear_scene] returns for every host state and leaves a scene
    with no mesh, no light and no camera and no active object, whatever
    was selected or active before; materials, images, the world, the disk
    and the output are as before. *)
Theorem clear_scene_empties (s : Bpy) :
  exists s',
    clear_scene s = (Ok tt, s') /\
    objects s' = [] /\ lights s' = [] /\ cameras s' = [] /\ active s' = None /\
    materials s' = materials s /\ images s' = images s /\ world s' = world s /\
    files s' = files s /\ stdout s' = stdout s.
Proof.
  exists (emptied s). split; [apply clear_scene_run|]. by destruct s.
Qed.

Lemma active_after_delete_none objs a :
  Ops.active_after_delete (select_set false <$> objs) a = kept_active objs a.
Proof.
  destruct a as [i|]; [|done]. unfold Ops.active_after_delete, kept_active.
  cbn [mbind option_bind]. rewrite list_lookup_fmap.
  destruct (objs !! i) as [o|] eqn:Hi; cbn.
  - apply lookup_lt_Some in Hi as Hlt. rewrite decide_True by done.
    destruct o; cbn. f_equal.
    rewrite <- fmap_take, (filter_fmap_all _ _ (take i objs)) by (by intros []).
    rewrite length_fmap, length_take. lia.
  - apply lookup_ge_None in Hi. by rewrite decide_False by lia.
Qed.

Lemma setup_lighting_run fs ro off imgs mats objs act lts cams w cl out :
  setup_lighting (mkBpy fs ro off imgs mats objs act lts cams w cl out)
  = (Ok tt,
     mkBpy fs ro off imgs mats (select_set false <$> objs) (kept_active objs act)
           studio_lights ((fun c : string * bool => (fst c, false)) <$> cams) w
           (cl ++ tag_calls act [Op_select_by_type "LIGHT"; Op_delete]) out).
Proof.
  unfold setup_lighting.
  step_with select_by_type_run. step_with delete_run.
  change (String.eqb "LIGHT" "MESH") with false.
  change (String.eqb "LIGHT" "LIGHT") with true.
  change (String.eqb "LIGHT" "CAMERA") with false.
  rewrite (filter_fmap_all _ _ objs) by (by intros []).
  rewrite (filter_fmap_none _ _ lts) by (by intros []).
  rewrite (filter_fmap_all _ _ cams) by (by intros []).
  rewrite active_after_delete_none.
  unfold tag_calls. cbn [fmap list_fmap]. rewrite <- app_assoc. reflexivity.
Qed.

(** X2.  [setup_lighting] returns for every host state and leaves exactly
    the key, fill and rim light, whatever lights were there before, so a
    second call changes no light.  It keeps the meshes and the cameras but
    deselects all of them. *)
Theorem setup_lighting_replaces_lights (s : Bpy) :
  exists s',
    setup_lighting s = (Ok tt, s') /\
    lights s' = studio_lights /\
    objects s' = select_set false <$> objects s /\
    cameras s' = (fun c : string * bool => (fst c, false)) <$> cameras s /\
    snd (setup_lighting s') = with_calls (calls (snd (setup_lighting s'))) s'.
Proof.
  destruct s as [fs ro off imgs mats objs act lts cams w cl out].
  rewrite setup_lighting_run. eexists. split; [reflexivity|].
  split; [reflexivity|]. split; [reflexivity|]. split; [reflexivity|].
  rewrite setup_lighting_run.
  cbv [snd with_calls files read_only offline images materials objects active
       lights cameras world calls stdout]. f_equal.
  - rewrite <- list_fmap_compose. apply list_fmap_ext. by intros ? [].
  - destruct act as [i|]; [|done]. unfold kept_active. cbn [mbind option_bind].
    rewrite length_fmap. case_decide; [|done]. cbn. by rewrite decide_True.
  - rewrite <- list_fmap_compose. apply list_fmap_ext. by intros ? [].
Qed.

(* ===================================================================== *)
(** * Further properties: the panorama *)
(* ===================================================================== *)

Lemma download_hdri_cached s :
  is_Some (files s !! hdri_path) -> download_hdri s = (Ok hdri_path, s).
Proof.
  intros Hf. unfold download_hdri, bind, os_path_exists.
  change (PyStr.path_join TEXTURES_DIR "studio_small_09.hdr") with hdri_path.
  by rewrite bool_decide_eq_true_2.
Qed.

Lemma download_hdri_absent s :
  files s !! hdri_path = None ->
  download_hdri s
  = if offline s || bool_decide (hdri_path ∈ read_only s)
    then (Raise (OSError hdri_path), with_stdout (stdout s ++ [download_notice]) s)
    else (Ok hdri_path, fetched s).
Proof.
  intros Hf. unfold download_hdri, bind, os_path_exists.
  change (PyStr.path_join TEXTURES_DIR "studio_small_09.hdr") with hdri_path.
  rewrite bool_decide_eq_false_2 by (rewrite Hf; by intros [? ?]).
  cbn [negb]. unfold print, modify, urlretrieve, fetched, download_notice.
  destruct s as [fs ro off imgs mats objs act lts cams w cl out].
  cbn [offline read_only with_stdout files images materials objects active
       lights cameras world calls stdout].
  by destruct (off || bool_decide (hdri_path ∈ ro)).
Qed.

(** X3.  [download_hdri] is memoised by the presence of the file: when a
    call returns, the panorama file is on disk, and a second call returns
    the same path and changes nothing, not even the output; a call that
    finds the file present changes nothing either, whatever the file holds
    and with or without a network. *)
Theorem download_hdri_memoised (s s' : Bpy) (p : string) :
  download_hdri s = (Ok p, s') ->
  p = hdri_path /\
  is_Some (files s' !! p) /\
  download_hdri s' = (Ok p, s') /\
  (is_Some (files s !! hdri_path) -> s' = s).
Proof.
  intros Hrun. destruct (files s !! hdri_path) as [f|] eqn:Hf.
  - rewrite download_hdri_cached in Hrun by eauto.
    injection Hrun as <- <-. rewrite Hf.
    split; [done|]. split; [eauto|]. split; [|done].
    apply download_hdri_cached. eauto.
  - rewrite download_hdri_absent in Hrun by done.
    destruct (offline s || bool_decide (hdri_path ∈ read_only s)); [done|].
    injection Hrun as <- <-.
    assert (is_Some (files (fetched s) !! hdri_path)) as Hs.
    { unfold fetched. destruct s. cbn. rewrite lookup_insert_eq. eauto. }
    split; [done|]. split; [done|]. split; [by apply download_hdri_cached|].
    by intros [? ?].
Qed.

Lemma download_hdri_memoised_witness :
  download_hdri blank = (Ok hdri_path, fetched blank) /\
  hdri_path = hdri_path /\
  is_Some (files (fetched blank) !! hdri_path) /\
  download_hdri (fetched blank) = (Ok hdri_path, fetched blank) /\
  (is_Some (files blank !! hdri_path) -> fetched blank = blank).
Proof.
  assert (download_hdri blank = (Ok hdri_path, fetched blank)) as H.
  { vm_compute. reflexivity. }
  split; [exact H|]. exact (download_hdri_memoised blank (fetched blank) hdri_path H).
Defined.

(** X4.  Without a network and without the panorama on disk, lines 393-397
    of [main] end with the [OSError] of the download: the world is not set
    up, no operator is called and no file is written, and the one line
    these statements print is the download notice. *)
Theorem main_needs_the_panorama (s : Bpy) :
  files s !! hdri_path = None ->
  offline s = true ->
  main_environment s
  = (Raise (OSError hdri_path), with_stdout (stdout s ++ [download_notice]) s).
Proof.
  intros Hf Hoff. unfold main_environment. unfold bind at 1.
  rewrite download_hdri_absent by done. by rewrite Hoff.
Qed.

Lemma main_needs_the_panorama_witness :
  files offline_host !! hdri_path = None /\
  offline offline_host = true /\
  main_environment offline_host
  = (Raise (OSError hdri_path),
     with_stdout (stdout offline_host ++ [download_notice]) offline_host).
Proof.
  assert (files offline_host !! hdri_path = None) as Hf by (vm_compute; reflexivity).
  split; [exact Hf|]. split; [reflexivity|].
  exact (main_needs_the_panorama offline_host Hf eq_refl).
Defined.

(* ===================================================================== *)
(** * Further properties: textures *)
(* ===================================================================== *)

Lemma find_image_alter (f : Image -> Image) p (imgs : list Image) : forall i,
  (forall im, filepath (f im) = filepath im) ->
  find_image p (alter f i imgs) = find_image p imgs.
Proof.
  intros i Hf. unfold find_image. revert i.
  induction imgs as [|im imgs IH]; intros i; [by destruct i|].
  destruct i as [|i]; cbn.
  - rewrite Hf. by destruct (decide (filepath im = p)).
  - destruct (decide (filepath im = p)); [done|].
    specialize (IH i). revert IH.
    destruct (list_find _ (alter f i imgs)) as [[]|],
             (list_find _ imgs) as [[]|]; cbn; congruence.
Qed.

Lemma find_image_app_new p c (imgs : list Image) :
  find_image p imgs = None ->
  find_image p (imgs ++ [mkImage p c]) = Some (length imgs).
Proof.
  unfold find_image. intros Hn.
  destruct (list_find _ imgs) as [[]|] eqn:E; [done|].
  rewrite list_find_app_r by done. cbn.
  destruct (decide (p = p)); [|done]. cbn. f_equal.
Qed.

Lemma load_texture_Some name cs s i s1 :
  load_texture name cs s = (Ok (Some i), s1) ->
  files s1 = files s /\
  is_Some (files s !! texture_path name) /\
  find_image (texture_path name) (images s1) = Some i /\
  (is_Some (find_image (texture_path name) (images s)) ->
   length (images s1) = length (images s)).
Proof.
  unfold load_texture, texture_path.
  set (path := PyStr.path_join _ _).
  unfold bind at 1, os_path_exists.
  destruct (files s !! path) as [f|] eqn:Hf; cbn [bool_decide].
  2:{ by rewrite bool_decide_eq_false_2 by (by intros [? ?]). }
  rewrite bool_decide_eq_true_2 by eauto.
  unfold try_except, bind.
  destruct (find_image path (images s)) as [j|] eqn:Hj.
  - rewrite (images_load_existing _ _ _ Hj). cbn.
    intros [= <- <-]. split; [by destruct s|]. split; [eauto|].
    destruct s as [fs ro off imgs mats objs act lts cams w cl out]; cbn [images with_images files read_only offline materials objects active lights cameras world calls stdout] in *.
    split; [by rewrite find_image_alter|]. intros _. by rewrite length_alter.
  - destruct f as [| meshes mats | n |].
    1:{ rewrite (images_load_new path s true) by done. cbn.
        intros [= <- <-]. split; [by destruct s|]. split; [eauto|].
        destruct s as [fs ro off imgs mats objs act lts cams w cl out]; cbn [images with_images files read_only offline materials objects active lights cameras world calls stdout] in *.
        split; [|by intros [? ?]].
        rewrite find_image_alter by done. by apply find_image_app_new. }
    all: erewrite (images_load_fails path s true) by (done || by rewrite Hf).
    all: done.
Qed.

(** X5.  A channel that has been loaded is not loaded again: a second
    [load_texture] of the same name, with whatever color space, returns the
    image of the first, adds no image, and leaves that image with the tag
    of the second call. *)
Theorem load_texture_reuses_the_image (name cs cs' : string) (s s1 : Bpy) (i : nat) :
  load_texture name cs s = (Ok (Some i), s1) ->
  exists s2,
    load_texture name cs' s1 = (Ok (Some i), s2) /\
    length (images s2) = length (images s1) /\
    images s2 !! i = Some (mkImage (texture_path name) (tag_of cs')) /\
    forall j, j <> i -> images s2 !! j = images s1 !! j.
Proof.
  intros Hrun.
  destruct (load_texture_Some _ _ _ _ _ Hrun) as (Hfiles & Hsome & Hfind & _).
  destruct (find_image_Some _ _ _ Hfind) as (im & Him & Hp).
  unfold load_texture. fold (texture_path name).
  unfold bind at 1, os_path_exists. rewrite Hfiles.
  rewrite bool_decide_eq_true_2 by done.
  unfold try_except, bind. rewrite (images_load_existing _ _ _ Hfind).
  eexists. split; [reflexivity|].
  destruct s1 as [fs ro off imgs mats objs act lts cams w cl out]; cbn in *.
  split; [by rewrite length_alter|]. split.
  - rewrite list_lookup_alter_eq, Him. cbn. by rewrite Hp.
  - intros j Hne. by rewrite list_lookup_alter_ne.
Qed.

Lemma load_texture_reuses_the_image_witness :
  exists s1 s2,
    load_texture "albedo" "sRGB" textured_host = (Ok (Some 0%nat), s1) /\
    load_texture "albedo" "Non-Color" s1 = (Ok (Some 0%nat), s2) /\
    length (images s2) = length (images s1) /\
    images s2 !! 0%nat = Some (mkImage (texture_path "albedo") (tag_of "Non-Color")) /\
    forall j, j <> 0%nat -> images s2 !! j = images s1 !! j.
Proof.
  assert (fst (load_texture "albedo" "sRGB" textured_host) = Ok (Some 0%nat)) as H0.
  { vm_compute. reflexivity. }
  destruct (load_texture "albedo" "sRGB" textured_host) as [r s1] eqn:H.
  cbn [fst] in H0. subst r.
  destruct (load_texture_reuses_the_image "albedo" "sRGB" "Non-Color"
              textured_host s1 0%nat H) as (s2 & H2).
  exists s1, s2. split; [reflexivity|]. exact H2.
Defined.

(** X6.  [setup_hdri] loads the panorama anew on every call.  A call on a
    panorama that loads builds the whole world tree and then ends with the
    exception of line 134; after two such calls the host holds two more
    images of the same file, both tagged Filmic sRGB, and the environment
    texture node of the world points to the newer one.  The world tree does
    not depend on the world that was there before. *)
Theorem setup_hdri_loads_anew (p : string) (s : Bpy) :
  files s !! p = Some ImageFile ->
  exists s1 s2 w,
    setup_hdri p s = (Raise studio_light_error, s1) /\
    setup_hdri p s1 = (Raise studio_light_error, s2) /\
    images s2 = images s ++ [mkImage p "Filmic sRGB"; mkImage p "Filmic sRGB"] /\
    world s2 = Some w /\
    node_tree w = loaded_world_tree (S (length (images s))) /\
    image <$> nodes (node_tree w) !! env_tex = Some (Some (S (length (images s)))).
Proof.
  intros Hf. pose proof (setup_hdri_loaded p s Hf) as H1.
  set (s1 := with_world _ _) in H1.
  assert (files s1 !! p = Some ImageFile) as Hf1 by (by destruct s).
  pose proof (setup_hdri_loaded p s1 Hf1) as H2.
  assert (images s1 = images s ++ [mkImage p "Filmic sRGB"]) as Hi by (by destruct s).
  exists s1. eexists _, _. split; [exact H1|]. split; [exact H2|].
  split.
  { cbn [images with_world with_images]. rewrite Hi, <- app_assoc. reflexivity. }
  split; [reflexivity|]. cbn [node_tree].
  rewrite Hi, length_app, Nat.add_comm. cbn [length Nat.add].
  split; [reflexivity|].
  by rewrite (proj1 (world_trees_env_tex _)).
Qed.

Lemma setup_hdri_loads_anew_witness :
  files (disk_with hdri_path ImageFile) !! hdri_path = Some ImageFile /\
  exists s1 s2 w,
    setup_hdri hdri_path (disk_with hdri_path ImageFile)
    = (Raise studio_light_error, s1) /\
    setup_hdri hdri_path s1 = (Raise studio_light_error, s2) /\
    images s2 = images (disk_with hdri_path ImageFile)
                ++ [mkImage hdri_path "Filmic sRGB"; mkImage hdri_path "Filmic sRGB"] /\
    world s2 = Some w /\
    node_tree w = loaded_world_tree (S (length (images (disk_with hdri_path ImageFile)))) /\
    image <$> nodes (node_tree w) !! env_tex
    = Some (Some (S (length (images (disk_with hdri_path ImageFile))))).
Proof.
  assert (files (disk_with hdri_path ImageFile) !! hdri_path = Some ImageFile) as Hf.
  { vm_compute. reflexivity. }
  split; [exact Hf|].
  exact (setup_hdri_loads_anew hdri_path (disk_with hdri_path ImageFile) Hf).
Defined.

(* ===================================================================== *)
(** * Further properties: one asset *)
(* ===================================================================== *)

Lemma print_run line fs ro off imgs mats objs act lts cams w cl out :
  print line (mkBpy fs ro off imgs mats objs act lts cams w cl out)
  = (Ok tt, mkBpy fs ro off imgs mats objs act lts cams w cl (out ++ [line])).
Proof. reflexivity. Qed.

Lemma import_gltf_run path fs ro off imgs mats objs act lts cams w cl out :
  Ops.import_gltf path (mkBpy fs ro off imgs mats objs act lts cams w cl out)
  = match fs !! path with
    | Some (GlbFile meshes ms) =>
        (Ok tt, mkBpy fs ro off imgs (ms ∪ mats) (objs ++ meshes) act lts cams w
                      (cl ++ [(act, Op_import_gltf path)]) out)
    | _ => (Raise (RuntimeError ("Could not import " +:+ path)),
            mkBpy fs ro off imgs mats objs act lts cams w
                  (cl ++ [(act, Op_import_gltf path)]) out)
    end.
Proof.
  unfold Ops.import_gltf, bind, record, modify, get, raise.
  cbn [files with_calls read_only offline images materials objects active
       lights cameras world calls stdout].
  by destruct (fs !! path) as [[]|].
Qed.

Lemma camera_add_run fs ro off imgs mats objs act lts cams w cl out :
  Ops.camera_add (mkBpy fs ro off imgs mats objs act lts cams w cl out)
  = (Ok tt, mkBpy fs ro off imgs mats (select_set false <$> objs) None
                  (set_light_selected false <$> lts)
                  (((fun c : string * bool => (fst c, false)) <$> cams)
                     ++ [("Camera", true)])
                  w (cl ++ [(act, Op_camera_add)]) out).
Proof. reflexivity. Qed.

Lemma export_gltf_run path fs ro off imgs mats objs act lts cams w cl out :
  Ops.export_gltf path (mkBpy fs ro off imgs mats objs act lts cams w cl out)
  = if bool_decide (path ∈ ro)
    then (Raise (RuntimeError ("Could not write " +:+ path)),
          mkBpy fs ro off imgs mats objs act lts cams w
                (cl ++ [(act, Op_export_gltf path)]) out)
    else (Ok tt, mkBpy (<[path := GlbFile objs mats]> fs) ro off imgs mats objs act
                       lts cams w (cl ++ [(act, Op_export_gltf path)]) out).
Proof.
  unfold Ops.export_gltf, bind, record, modify, get, raise.
  cbn [files with_calls with_files read_only offline images materials objects active
       lights cameras world calls stdout].
  by destruct (bool_decide (path ∈ ro)).
Qed.

(** X7.  When the import fails, [process_model] ends with the importer's
    error after the scene has been cleared: the meshes, lights and cameras
    of the asset before are gone, no file is written, and materials,
    images and the world are as before. *)
Theorem failed_import_leaves_an_empty_scene (input_path output_path : string) (s : Bpy) :
  (forall meshes mats, files s !! input_path <> Some (GlbFile meshes mats)) ->
  exists msg s',
    process_model input_path output_path s = (Raise (RuntimeError msg), s') /\
    objects s' = [] /\ lights s' = [] /\ cameras s' = [] /\
    files s' = files s /\ materials s' = materials s /\ images s' = images s /\
    world s' = world s /\
    stdout s' = stdout s ++ ["Processing: " +:+ input_path].
Proof.
  intros Hf. destruct s as [fs ro off imgs mats objs act lts cams w cl out].
  cbn [files] in Hf.
  unfold process_model. step_with print_run.
  unfold bind at 1. rewrite clear_scene_run. unfold emptied.
  cbv [with_calls with_cameras with_lights with_active with_objects
       files read_only offline images materials objects active
       lights cameras world calls stdout].
  unfold bind at 1. rewrite import_gltf_run.
  destruct (fs !! input_path) as [[| meshes ms | |]|] eqn:E.
  2:{ by destruct (Hf meshes ms). }
  all: eexists _, _; split; [reflexivity|]; done.
Qed.

Lemma failed_import_leaves_an_empty_scene_witness :
  (forall meshes mats,
     files (with_objects [ring; gem] (disk_with "a.glb" OtherFile)) !! "a.glb"
     <> Some (GlbFile meshes mats)) /\
  exists msg s',
    process_model "a.glb" "b.glb" (with_objects [ring; gem] (disk_with "a.glb" OtherFile))
    = (Raise (RuntimeError msg), s') /\
    objects s' = [] /\ lights s' = [] /\ cameras s' = [] /\
    files s' = files (with_objects [ring; gem] (disk_with "a.glb" OtherFile)) /\
    materials s' = materials (with_objects [ring; gem] (disk_with "a.glb" OtherFile)) /\
    images s' = images (with_objects [ring; gem] (disk_with "a.glb" OtherFile)) /\
    world s' = world (with_objects [ring; gem] (disk_with "a.glb" OtherFile)) /\
    stdout s' = stdout (with_objects [ring; gem] (disk_with "a.glb" OtherFile))
                ++ ["Processing: " +:+ "a.glb"].
Proof.
  assert (forall meshes mats,
     files (with_objects [ring; gem] (disk_with "a.glb" OtherFile)) !! "a.glb"
     <> Some (GlbFile meshes mats)) as Hf.
  { intros meshes mats. vm_compute. discriminate. }
  split; [exact Hf|].
  exact (failed_import_leaves_an_empty_scene "a.glb" "b.glb" _ Hf).
Defined.

(** The object loop leaves lights and cameras alone. *)
Lemma normalize_object_scene i s obj s' :
  objects s !! i = Some obj ->
  slots_bound obj s ->
  normalize_object i s = (Ok tt, s') ->
  lights s' = lights s /\ cameras s' = cameras s.
Proof.
  intros Hi Hb. rewrite normalize_object_unfold. cbn zeta.
  set (s1 := with_calls _ _).
  assert (objects s1 = objects_before_materials i (objects s)) as Ho1 by (by destruct s).
  rewrite Ho1, objects_before_lookup, Hi, bool_decide_eq_true_2 by done.
  cbn [fmap option_fmap option_map].
  set (obj1 := before_one true obj).
  pose proof (before_one_same_mesh true obj) as Hsame. fold obj1 in Hsame.
  assert (slots_bound obj1 s1) as Hb1.
  { eapply slots_bound_same_mesh; [exact Hsame| |exact Hb]. by destruct s. }
  destruct (process_materials_run obj1 s1 Hb1)
    as (tx & s2 & -> & Hframe & _ & _ & Hmats).
  assert (lights s2 = lights s /\ cameras s2 = cameras s) as [Hl Hc].
  { rewrite Hframe. by destruct s. }
  intros [= <-]. by destruct s2.
Qed.

Lemma normalize_loop_scene n : forall k s s',
  scene_bound s ->
  k + n = length (objects s) ->
  for_each (seq k n) normalize_object s = (Ok tt, s') ->
  lights s' = lights s /\ cameras s' = cameras s.
Proof.
  induction n as [|n IH]; intros k s s' Hb Hlen.
  { by intros [= <-]. }
  destruct (lookup_lt_is_Some_2 (objects s) k) as [obj Hk]; [lia|].
  assert (slots_bound obj s) as Hbo.
  { apply Hb. by eapply list_elem_of_lookup_2. }
  destruct (normalize_object_run k s obj Hk Hbo)
    as (s1 & Hrun & Hcalls & Hobjs & Hmats & _).
  destruct (normalize_object_scene k s obj s1 Hk Hbo Hrun) as [Hl Hc].
  assert (Forall2 same_mesh (objects s) (objects s1)) as Hsame.
  { eapply lookup_fmap_Forall2; [exact Hobjs|].
    intros j o. eapply same_mesh_trans;
      [apply before_one_same_mesh | apply after_one_same_mesh]. }
  assert (scene_bound s1) as Hb1.
  { intros o' Hin. apply list_elem_of_lookup_1 in Hin as [j Hj].
    destruct (Forall2_lookup_r _ _ _ _ _ Hsame Hj) as (o & Ho & Hoo).
    eapply slots_bound_same_mesh; [exact Hoo | exact Hmats |].
    apply Hb. by eapply list_elem_of_lookup_2. }
  cbn [seq for_each]. unfold bind. rewrite Hrun. intros Hloop.
  destruct (IH (S k) s1 s' Hb1) as [Hl' Hc']; [|exact Hloop|].
  { apply Forall2_length in Hsame. lia. }
  split; congruence.
Qed.

Lemma same_mesh_names l l' :
  Forall2 same_mesh l l' -> obj_name <$> l' = obj_name <$> l.
Proof.
  induction 1 as [|o o' l l' (Hn & _) _ IH]; [done|]. cbn. by rewrite Hn, IH.
Qed.

Lemma download_hdri_explicit fs ro off imgs mats objs act lts cams w cl out :
  download_hdri (mkBpy fs ro off imgs mats objs act lts cams w cl out)
  = match fs !! hdri_path with
    | Some _ => (Ok hdri_path, mkBpy fs ro off imgs mats objs act lts cams w cl out)
    | None =>
        if off || bool_decide (hdri_path ∈ ro)
        then (Raise (OSError hdri_path),
              mkBpy fs ro off imgs mats objs act lts cams w cl (out ++ [download_notice]))
        else (Ok hdri_path,
              mkBpy (<[hdri_path := ImageFile]> fs) ro off imgs mats objs act lts cams w
                    cl (out ++ [download_notice]))
    end.
Proof.
  destruct (fs !! hdri_path) as [f|] eqn:Hf.
  - apply download_hdri_cached. cbn [files]. rewrite Hf. eauto.
  - rewrite download_hdri_absent by exact Hf. reflexivity.
Qed.

(** [setup_hdri] never returns: it ends with the exception of the color
    where the panorama does not load and with the one of the studio light
    where it does, and it touches the images, the world and the output. *)
Lemma setup_hdri_explicit p fs ro off imgs mats objs act lts cams w cl out :
  exists e imgs' w' out',
    setup_hdri p (mkBpy fs ro off imgs mats objs act lts cams w cl out)
    = (Raise e, mkBpy fs ro off imgs' mats objs act lts cams (Some w') cl out') /\
    (e = color_error \/ e = studio_light_error).
Proof.
  assert (fs !! p = Some ImageFile \/ fs !! p <> Some ImageFile) as [Hf|Hf].
  { destruct (fs !! p) as [[]|]; (by left) || (by right). }
  - rewrite setup_hdri_loaded by exact Hf.
    eexists _, _, _, _. split; [reflexivity|]. by right.
  - rewrite setup_hdri_fallback by exact Hf.
    eexists _, _, _, _. split; [reflexivity|]. by left.
Qed.

(** The end of [process_model], from [setup_lighting()] on. *)
Lemma process_model_tail output_path fs ro off imgs mats objs act lts cams w cl out :
  is_Some (fs !! hdri_path) \/ (off = false /\ hdri_path ∉ ro) ->
  exists e s',
    (setup_lighting ;;
     hdri_path <- download_hdri ;;
     setup_hdri hdri_path ;;
     Ops.export_gltf output_path ;;
     print ("Exported: " +:+ output_path))
      (mkBpy fs ro off imgs mats objs act lts cams w cl out) = (Raise e, s') /\
    (e = color_error \/ e = studio_light_error) /\
    objects s' = select_set false <$> objs /\
    materials s' = mats /\
    lights s' = studio_lights /\
    cameras s' = (fun c : string * bool => (fst c, false)) <$> cams /\
    (forall p, p <> hdri_path -> files s' !! p = fs !! p) /\
    calls s' = cl ++ tag_calls act [Op_select_by_type "LIGHT"; Op_delete].
Proof.
  intros Hpan.
  step_with setup_lighting_run.
  unfold bind at 1. rewrite download_hdri_explicit.
  assert (exists fs' out',
    match fs !! hdri_path with
    | Some _ =>
        (Ok hdri_path,
         mkBpy fs ro off imgs mats (select_set false <$> objs) (kept_active objs act)
           studio_lights ((fun c : string * bool => (fst c, false)) <$> cams) w
           (cl ++ tag_calls act [Op_select_by_type "LIGHT"; Op_delete]) out)
    | None =>
        if off || bool_decide (hdri_path ∈ ro)
        then (Raise (OSError hdri_path),
              mkBpy fs ro off imgs mats (select_set false <$> objs)
                (kept_active objs act) studio_lights
                ((fun c : string * bool => (fst c, false)) <$> cams) w
                (cl ++ tag_calls act [Op_select_by_type "LIGHT"; Op_delete])
                (out ++ [download_notice]))
        else (Ok hdri_path,
              mkBpy (<[hdri_path := ImageFile]> fs) ro off imgs mats
                (select_set false <$> objs) (kept_active objs act) studio_lights
                ((fun c : string * bool => (fst c, false)) <$> cams) w
                (cl ++ tag_calls act [Op_select_by_type "LIGHT"; Op_delete])
                (out ++ [download_notice]))
    end
    = (Ok hdri_path,
       mkBpy fs' ro off imgs mats (select_set false <$> objs) (kept_active objs act)
         studio_lights ((fun c : string * bool => (fst c, false)) <$> cams) w
         (cl ++ tag_calls act [Op_select_by_type "LIGHT"; Op_delete]) out') /\
    forall p, p <> hdri_path -> fs' !! p = fs !! p)
    as (fs' & out' & -> & Hfs').
  { destruct (fs !! hdri_path) as [f|] eqn:Hf; [by eexists _, _|].
    destruct Hpan as [[? ?]|[-> Hro]]; [done|].
    rewrite bool_decide_eq_false_2 by done. eexists _, _. split; [reflexivity|].
    intros p Hne. by rewrite lookup_insert_ne. }
  cbv beta iota.
  unfold bind at 1.
  destruct (setup_hdri_explicit hdri_path fs' ro off imgs mats
              (select_set false <$> objs) (kept_active objs act) studio_lights
              ((fun c : string * bool => (fst c, false)) <$> cams) w
              (cl ++ tag_calls act [Op_select_by_type "LIGHT"; Op_delete]) out')
    as (e & imgs' & w' & out'' & -> & He).
  eexists e, _. split; [reflexivity|]. split; [exact He|].
  cbn [objects materials lights cameras files calls]. done.
Qed.

Lemma clear_scene_explicit fs ro off imgs mats objs act lts cams w cl out :
  clear_scene (mkBpy fs ro off imgs mats objs act lts cams w cl out)
  = (Ok tt, mkBpy fs ro off imgs mats [] None [] [] w (cl ++ clear_scene_calls act) out).
Proof. rewrite clear_scene_run. reflexivity. Qed.

Lemma pass_run {S} (s : S) : pass s = (Ok tt, s).
Proof. reflexivity. Qed.

Lemma deselected_same_mesh meshes objs :
  Forall2 same_mesh meshes objs ->
  Forall2 same_mesh meshes (select_set false <$> objs).
Proof.
  intros H. apply Forall2_fmap_r. eapply Forall2_impl; [exact H|].
  intros o o' (? & ? & ?). by destruct o'.
Qed.

Lemma deselected_normalized (objs : list Object) :
  normalized_upto (length objs) objs ->
  Forall (fun o => transform o = identity_at_origin /\ selected o = false)
         (select_set false <$> objs).
Proof.
  intros H. apply Forall_fmap, Forall_lookup. intros j o Hj.
  destruct (H j o) as [Ht _]; [by eapply lookup_lt_Some | done |].
  destruct o. cbn in *. done.
Qed.

(** X8.  [process_model] does not get to the export.  On an asset file
    that imports, with every slot bound and the panorama on disk or within
    reach, it clears the scene, imports and normalizes the meshes of the
    asset, adds the camera unless a mesh is named Camera, sets the three
    lights, and then ends with the exception [setup_hdri] raises: the one
    of the color where the panorama does not load, the one of the studio
    light where it does.  The meshes are left with identity scale and
    rotation, at the world origin and deselected, and no file is written
    but the panorama. *)
Theorem process_model_stops_at_the_world (input_path output_path : string) (s : Bpy)
    (meshes : list Object) (ms : gmap string Material) :
  files s !! input_path = Some (GlbFile meshes ms) ->
  (forall obj mat, obj ∈ meshes -> Some mat ∈ material_slots obj ->
                   is_Some ((ms ∪ materials s) !! mat)) ->
  is_Some (files s !! hdri_path) \/ (offline s = false /\ hdri_path ∉ read_only s) ->
  exists e s',
    process_model input_path output_path s = (Raise e, s') /\
    (e = color_error \/ e = studio_light_error) /\
    Forall2 same_mesh meshes (objects s') /\
    Forall (fun o => transform o = identity_at_origin /\ selected o = false)
           (objects s') /\
    lights s' = studio_lights /\
    cameras s' = (if bool_decide ("Camera" ∈ obj_name <$> meshes) then []
                  else [("Camera", false)]) /\
    (forall p, p <> hdri_path -> files s' !! p = files s !! p) /\
    Forall (fun c => snd c <> Op_export_gltf output_path) (calls_since s s').
Proof.
  intros Hin Hbound Hpan.
  destruct s as [fs ro off imgs mats objs act lts cams w cl out].
  cbn [files materials offline read_only] in Hin, Hbound, Hpan.
  unfold process_model. step_with print_run.
  step_with clear_scene_explicit.
  unfold bind at 1. rewrite import_gltf_run, Hin. cbn [app].
  set (s0 := mkBpy fs ro off imgs (ms ∪ mats) meshes None [] [] w _ _).
  unfold bind at 1, get at 1. cbv beta iota zeta.
  assert (scene_bound s0) as Hb0.
  { intros obj Hobj mat Hmat. by apply (Hbound obj mat). }
  destruct (normalize_loop_run (length (objects s0)) 0 s0 Hb0 eq_refl)
    as (sn & Hloop & Hsame & Hnorm & Hcalls & _ & Hfs & Hro & Hoff & _).
  { intros j o Hj. lia. }
  destruct (normalize_loop_scene (length (objects s0)) 0 s0 sn Hb0 eq_refl Hloop)
    as [Hl Hc].
  unfold bind at 1. rewrite Hloop. clear Hloop.
  destruct sn as [fsn ron offn imgsn matsn objsn actn ltsn camsn wn cln outn].
  subst s0.
  cbn [files read_only offline objects lights cameras calls Nat.add drop]
    in Hsame, Hnorm, Hcalls, Hfs, Hro, Hoff, Hl, Hc.
  subst fsn ron offn ltsn camsn.
  rewrite (Forall2_length _ _ _ Hsame) in Hnorm.
  unfold bind at 1, get at 1. cbv beta iota.
  assert (has_object_named "Camera"
            (mkBpy fs ro off imgsn matsn objsn actn [] [] wn cln outn)
          = bool_decide ("Camera" ∈ obj_name <$> meshes)) as ->.
  { unfold has_object_named. cbn [objects lights cameras fmap list_fmap].
    by rewrite !app_nil_r, (same_mesh_names _ _ Hsame). }
  assert (exists new, cln = cl ++ new /\
            Forall (fun c : option nat * Op => snd c <> Op_export_gltf output_path) new)
    as (new & -> & Hnoexp).
  { exists ((clear_scene_calls act ++ [(None, Op_import_gltf input_path)])
            ++ loop_calls 0 meshes).
    split; [by rewrite Hcalls, <- !app_assoc|].
    apply Forall_app. split.
    - unfold clear_scene_calls, tag_calls. cbn. repeat constructor; discriminate.
    - unfold loop_calls. apply Forall_forall. intros c Hc.
      apply list_elem_of_join in Hc as (l & Hc & Hl).
      apply elem_of_lookup_imap in Hl as (j & o & -> & _).
      unfold turn_calls, tag_calls, calls_before_materials, calls_after_materials in Hc.
      apply list_elem_of_fmap in Hc as (op & -> & Hop). cbn [snd].
      destruct (has_faces o); cbn in Hop;
        repeat (apply elem_of_cons in Hop as [->|Hop]; [discriminate|]);
        by apply elem_of_nil in Hop. }
  destruct (bool_decide ("Camera" ∈ obj_name <$> meshes)); cbn [negb].
  - unfold bind at 1. rewrite pass_run.
    destruct (process_model_tail output_path fs ro off imgsn matsn objsn actn [] []
                wn (cl ++ new) outn Hpan)
      as (e & s' & Hrun & He & Ho & Hm & Hli & Hca & Hfile & Hcl).
    exists e, s'. split; [exact Hrun|]. split; [exact He|].
    rewrite Ho. split; [by apply deselected_same_mesh|].
    split; [by apply deselected_normalized|].
    split; [done|]. split; [done|]. split; [exact Hfile|].
    unfold calls_since. cbn [calls]. rewrite Hcl, <- !app_assoc, drop_app_length.
    apply Forall_app. split; [exact Hnoexp|].
    unfold tag_calls. cbn. repeat constructor; discriminate.
  - unfold bind at 1. rewrite camera_add_run. cbn [fmap list_fmap app].
    destruct (process_model_tail output_path fs ro off imgsn matsn
                (select_set false <$> objsn) None [] [("Camera", true)]
                wn ((cl ++ new) ++ [(actn, Op_camera_add)]) outn Hpan)
      as (e & s' & Hrun & He & Ho & Hm & Hli & Hca & Hfile & Hcl).
    exists e, s'. split; [exact Hrun|]. split; [exact He|].
    rewrite Ho. split; [by do 2 apply deselected_same_mesh|].
    split.
    { apply deselected_normalized.
      intros j o Hj Hlook. rewrite list_lookup_fmap in Hlook.
      destruct (objsn !! j) as [o0|] eqn:E; [|done]. injection Hlook as <-.
      destruct (Hnorm j o0) as [Ht Hs]; [by eapply lookup_lt_Some | done |].
      destruct o0. cbn in *. done. }
    split; [done|]. split; [done|]. split; [exact Hfile|].
    unfold calls_since. cbn [calls]. rewrite Hcl, <- !app_assoc, drop_app_length.
    apply Forall_app. split; [exact Hnoexp|].
    unfold tag_calls. cbn. repeat constructor; discriminate.
Qed.

Lemma process_model_stops_at_the_world_witness :
  let input_path := input_glb (mkModel "ring" "") in
  let output_path := output_glb (mkModel "ring" "") in
  let meshes := [ring; gem] in
  let ms : gmap string Material := {[ "Gold Metal" := mkMaterial false Tree.empty ]} in
  files studio_host !! input_path = Some (GlbFile meshes ms) /\
  (forall obj mat, obj ∈ meshes -> Some mat ∈ material_slots obj ->
                   is_Some ((ms ∪ materials studio_host) !! mat)) /\
  (is_Some (files studio_host !! hdri_path) \/
   (offline studio_host = false /\ (hdri_path ∉ read_only studio_host))) /\
  exists e s',
    process_model input_path output_path studio_host = (Raise e, s') /\
    (e = color_error \/ e = studio_light_error) /\
    Forall2 same_mesh meshes (objects s') /\
    Forall (fun o => transform o = identity_at_origin /\ selected o = false)
           (objects s') /\
    lights s' = studio_lights /\
    cameras s' = (if bool_decide ("Camera" ∈ obj_name <$> meshes) then []
                  else [("Camera", false)]) /\
    (forall p, p <> hdri_path -> files s' !! p = files studio_host !! p) /\
    Forall (fun c => snd c <> Op_export_gltf output_path) (calls_since studio_host s').
Proof.
  intros input_path output_path meshes ms.
  assert (files studio_host !! input_path = Some (GlbFile meshes ms)) as Hin.
  { vm_compute. reflexivity. }
  assert (forall obj mat, obj ∈ meshes -> Some mat ∈ material_slots obj ->
                   is_Some ((ms ∪ materials studio_host) !! mat)) as Hb.
  { intros obj mat Ho Hm. subst meshes.
    rewrite !elem_of_cons, elem_of_nil in Ho. destruct Ho as [->|[->|[]]].
    - cbn [material_slots ring] in Hm.
      rewrite !elem_of_cons, elem_of_nil in Hm.
      destruct Hm as [[= ->]|[[=]|[]]]. vm_compute. eauto.
    - cbn [material_slots gem] in Hm. by rewrite elem_of_nil in Hm. }
  assert (is_Some (files studio_host !! hdri_path) \/
          (offline studio_host = false /\ (hdri_path ∉ read_only studio_host))) as Hp.
  { right. split; [reflexivity|]. cbn [read_only studio_host]. apply not_elem_of_empty. }
  split; [exact Hin|]. split; [exact Hb|]. split; [exact Hp|].
  exact (process_model_stops_at_the_world input_path output_path studio_host meshes ms
           Hin Hb Hp).
Defined.

(* ===================================================================== *)
(** * Further properties: the viewer page and the run *)
(* ===================================================================== *)

Lemma safe_name_cons c name :
  safe_name (String c name)
  = if Ascii.eqb c dquote then String backslash (String dquote (safe_name name))
    else String c (safe_name name).
Proof. unfold safe_name. cbn [PyStr.replace_char]. by destruct (Ascii.eqb c dquote). Qed.

Lemma quote_has_backslash_before name : forall pre post,
  safe_name name = pre +:+ String dquote post ->
  exists pre', pre = pre' +:+ String backslash EmptyString.
Proof.
  induction name as [|c name IH]; intros pre post.
  { destruct pre; discriminate. }
  rewrite safe_name_cons. destruct (Ascii.eqb c dquote) eqn:E.
  - destruct pre as [|a [|b pre]]; cbn.
    + by intros [=].
    + intros [= <- _]. by exists EmptyString.
    + intros [= <- <- H]. destruct (IH _ _ H) as [pre' ->].
      by exists (String backslash (String dquote pre')).
  - destruct pre as [|a pre]; cbn.
    + intros [= -> _]. by rewrite Ascii.eqb_refl in E.
    + intros [= <- H]. destruct (IH _ _ H) as [pre' ->].
      by exists (String c pre').
Qed.

(** X9.  [safe_name] removes no double quote and puts one backslash
    before each: the result has as many double quotes as the name, it is
    longer by that number, every double quote in it follows a backslash,
    and a name without a double quote is left as it is. *)
Theorem safe_name_escapes_every_quote (name : string) :
  occurrences dquote (safe_name name) = occurrences dquote name /\
  String.length (safe_name name) = String.length name + occurrences dquote name /\
  (forall pre post, safe_name name = pre +:+ String dquote post ->
     exists pre', pre = pre' +:+ String backslash EmptyString) /\
  (occurrences dquote name = 0 -> safe_name name = name).
Proof.
  split; [|split; [|split]].
  - induction name as [|c name IH]; [done|].
    rewrite safe_name_cons. destruct (Ascii.eqb c dquote) eqn:E.
    + cbn [occurrences]. rewrite E, IH. reflexivity.
    + cbn [occurrences]. by rewrite E, IH.
  - induction name as [|c name IH]; [done|].
    rewrite safe_name_cons. destruct (Ascii.eqb c dquote) eqn:E.
    + cbn [String.length occurrences]. rewrite E, IH. lia.
    + cbn [String.length occurrences]. rewrite E, IH. lia.
  - apply quote_has_backslash_before.
  - induction name as [|c name IH]; [done|].
    rewrite safe_name_cons. cbn [occurrences].
    destruct (Ascii.eqb c dquote); [done|]. intros H. by rewrite IH.
Qed.

Lemma bind_raises {S A B} (c : Py S A) (k : A -> Py S B) s :
  (forall a s1, exists e s', k a s1 = (Raise e, s')) ->
  exists e s', bind c k s = (Raise e, s').
Proof.
  intros Hk. unfold bind. destruct (c s) as [[a|e] s1]; [apply Hk | eauto].
Qed.

Lemma bind_raises_now {S A B} (c : Py S A) (k : A -> Py S B) s :
  (exists e s', c s = (Raise e, s')) ->
  exists e s', bind c k s = (Raise e, s').
Proof. intros (e & s' & H). unfold bind. rewrite H. eauto. Qed.

Lemma setup_hdri_raises p s : exists e s', setup_hdri p s = (Raise e, s').
Proof.
  destruct s as [fs ro off imgs mats objs act lts cams w cl out].
  destruct (setup_hdri_explicit p fs ro off imgs mats objs act lts cams w cl out)
    as (e & imgs' & w' & out' & H & _).
  eauto.
Qed.

(** X15.  [process_model] returns on no input: for every pair of paths and
    every host state it ends with an exception.  A run that is not ended
    before by the import, the object loop or the download ends in
    [setup_hdri], so the export and the line that reports it are never
    reached. *)
Theorem process_model_never_returns (input_path output_path : string) (s : Bpy) :
  exists e s', process_model input_path output_path s = (Raise e, s').
Proof.
  unfold process_model.
  do 9 (apply bind_raises; intros ? ?; cbv beta).
  apply bind_raises_now, setup_hdri_raises.
Qed.

(** X10.  Lines 393-397 of [main] never return: for every host state they
    end with the [OSError] of the download or with the exception
    [setup_hdri] raises, so the asset loop that follows them in [main] is
    not reached.  They call no operator, leave the scene and the materials
    as they are and write no file but the panorama. *)
Theorem main_environment_never_returns (s : Bpy) :
  exists e s',
    main_environment s = (Raise e, s') /\
    (e = OSError hdri_path \/ e = color_error \/ e = studio_light_error) /\
    calls s' = calls s /\ objects s' = objects s /\ materials s' = materials s /\
    forall p, p <> hdri_path -> files s' !! p = files s !! p.
Proof.
  destruct s as [fs ro off imgs mats objs act lts cams w cl out].
  unfold main_environment. unfold bind at 1. rewrite download_hdri_explicit.
  destruct (fs !! hdri_path) as [f|] eqn:Hp.
  - destruct (setup_hdri_explicit hdri_path fs ro off imgs mats objs act lts cams w cl out)
      as (e & imgs' & w' & out' & -> & He).
    eexists e, _. split; [reflexivity|]. split; [by right|]. done.
  - destruct (off || bool_decide (hdri_path ∈ ro)).
    + eexists _, _. split; [reflexivity|]. split; [by left|]. done.
    + destruct (setup_hdri_explicit hdri_path (<[hdri_path := ImageFile]> fs) ro off
                  imgs mats objs act lts cams w cl (out ++ [download_notice]))
        as (e & imgs' & w' & out' & -> & He).
      eexists e, _. split; [reflexivity|]. split; [by right|].
      cbn [calls objects materials files].
      split; [done|]. split; [done|]. split; [done|].
      intros p Hne. by rewrite lookup_insert_ne.
Qed.

(* ===================================================================== *)
(** * Further properties: the shape of the trees *)
(* ===================================================================== *)

Lemma layered_link t l :
  layered t = true -> l ∈ links t ->
  exists a b, node_depth t (from_node l) = Some a /\
              node_depth t (to_node l) = Some b /\ a < b.
Proof.
  unfold layered. rewrite forallb_forall. intros H Hin.
  specialize (H l (proj1 (list_elem_of_In _ _) Hin)). unfold descends in H.
  destruct (node_depth t (from_node l)) as [a|]; [|done].
  destruct (node_depth t (to_node l)) as [b|]; [|done].
  exists a, b. split; [done|]. split; [done|]. by apply Nat.ltb_lt.
Qed.

Lemma layered_flows t a b :
  layered t = true -> flows t a b ->
  exists da db, node_depth t a = Some da /\ node_depth t b = Some db /\ da < db.
Proof.
  intros H. induction 1 as [l Hin | a b c _ IH1 _ IH2].
  - by apply layered_link.
  - destruct IH1 as (da & db & Ha & Hb & Hab).
    destruct IH2 as (db' & dc & Hb' & Hc & Hbc).
    exists da, dc. split; [done|]. split; [done|].
    rewrite Hb in Hb'. injection Hb' as <-. lia.
Qed.

Lemma layered_sound t out :
  layered t = true ->
  output_nodes t = [out] ->
  links_into t out <> [] ->
  sound_tree t.
Proof.
  intros H Hout Hfed. split; [|split].
  - intros l Hin. destruct (layered_link t l H Hin) as (a & b & Ha & Hb & _).
    unfold node_depth in Ha, Hb.
    destruct (nodes t !! from_node l); [|done].
    destruct (nodes t !! to_node l); [|done]. eauto.
  - intros n Hn. destruct (layered_flows t n n H Hn) as (a & b & Ha & Hb & Hlt).
    rewrite Ha in Hb. injection Hb as <-. lia.
  - by exists out.
Qed.

Lemma material_tree_layered mat tx :
  layered (material_tree mat tx) = true /\
  output_nodes (material_tree mat tx) = [1] /\
  links_into (material_tree mat tx) 1
  = [mkLink surface (SName "BSDF") 1 (SName "Surface")].
Proof.
  destruct tx as [[b|] [n|] [r|] [m|]]; unfold_material_tree.
  all: split_on_name mat; cbn [orb].
  all: split; [vm_compute; reflexivity|].
  all: split; vm_compute; reflexivity.
Qed.

Lemma world_trees_layered i :
  layered (loaded_world_tree i) = true /\
  output_nodes (loaded_world_tree i) = [6] /\
  links_into (loaded_world_tree i) 6 <> [].
Proof. repeat split; vm_compute; (reflexivity || discriminate). Qed.

(** X11.  Every material tree [process_materials] builds is sound, for
    every material name and whichever of the four textures load: both ends
    of every link are nodes of the tree, no data flows in a circle, and
    there is exactly one output node, fed by the surface node alone. *)
Theorem material_trees_are_sound (obj : Object) (s : Bpy) :
  slots_bound obj s ->
  exists s',
    process_materials obj s = (Ok tt, s') /\
    forall mat, Some mat ∈ material_slots obj ->
      exists m,
        materials s' !! mat = Some m /\
        sound_tree (node_tree m) /\
        output_nodes (node_tree m) = [1] /\
        links_into (node_tree m) 1
        = [mkLink surface (SName "BSDF") 1 (SName "Surface")].
Proof.
  intros Hb.
  destruct (process_materials_run obj s Hb) as (tx & s' & Hrun & _ & _ & _ & Hmats).
  exists s'. split; [exact Hrun|]. intros mat Hin.
  eexists. split; [rewrite Hmats; by rewrite decide_True|].
  cbn [node_tree].
  destruct (material_tree_layered mat tx) as (Hl & Hout & Hfed).
  split; [|done].
  eapply layered_sound; [exact Hl | exact Hout |]. by rewrite Hfed.
Qed.

Lemma material_trees_are_sound_witness :
  slots_bound ring textured_host /\
  exists s',
    process_materials ring textured_host = (Ok tt, s') /\
    forall mat, Some mat ∈ material_slots ring ->
      exists m,
        materials s' !! mat = Some m /\
        sound_tree (node_tree m) /\
        output_nodes (node_tree m) = [1] /\
        links_into (node_tree m) 1
        = [mkLink surface (SName "BSDF") 1 (SName "Surface")].
Proof.
  assert (slots_bound ring textured_host) as Hb.
  { apply slots_bound_ring. vm_compute. eauto. }
  split; [exact Hb|].
  exact (material_trees_are_sound ring textured_host Hb).
Defined.

(** X12.  With a panorama that loads, the world tree [setup_hdri] has
    built when it ends with the exception of line 134 is sound, for every
    path and every host state: no link dangles, no data flows in a circle,
    and the world output is the one output node and is fed. *)
Theorem world_tree_is_sound (p : string) (s : Bpy) :
  files s !! p = Some ImageFile ->
  exists s' w,
    setup_hdri p s = (Raise studio_light_error, s') /\
    world s' = Some w /\
    sound_tree (node_tree w) /\
    output_nodes (node_tree w) = [6].
Proof.
  intros Hf. rewrite setup_hdri_loaded by exact Hf. eexists _, _.
  split; [reflexivity|]. split; [by destruct s|]. cbn [node_tree].
  destruct (world_trees_layered (length (images s))) as (Hl & Hout & Hfed).
  split; [|done]. by eapply layered_sound.
Qed.

Lemma world_tree_is_sound_witness :
  files (disk_with hdri_path ImageFile) !! hdri_path = Some ImageFile /\
  exists s' w,
    setup_hdri hdri_path (disk_with hdri_path ImageFile)
    = (Raise studio_light_error, s') /\
    world s' = Some w /\
    sound_tree (node_tree w) /\
    output_nodes (node_tree w) = [6].
Proof.
  assert (files (disk_with hdri_path ImageFile) !! hdri_path = Some ImageFile) as Hf.
  { vm_compute. reflexivity. }
  split; [exact Hf|].
  exact (world_tree_is_sound hdri_path (disk_with hdri_path ImageFile) Hf).
Defined.

(* ===================================================================== *)
(** * Further properties: the material pass run again *)
(* ===================================================================== *)

Lemma process_materials_as_load_all obj s :
  material_slots obj <> [] ->
  process_materials obj s
  = match load_all s with
    | (Ok tx, s1) => for_each (material_slots obj) (process_slot tx) s1
    | (Raise e, s1) => (Raise e, s1)
    end.
Proof.
  intros Hne. unfold process_materials. rewrite bool_decide_eq_false_2 by done.
  unfold load_all, bind.
  destruct (load_texture "albedo" "sRGB" s) as [[r1|?] s1]; [|done].
  destruct (load_texture "normal" "Non-Color" s1) as [[r2|?] s2]; [|done].
  destruct (load_texture "roughness" "Non-Color" s2) as [[r3|?] s3]; [|done].
  destruct (load_texture "metallic" "Non-Color" s3) as [[r4|?] s4]; done.
Qed.

Lemma find_image_app_l p (imgs more : list Image) i :
  find_image p imgs = Some i -> find_image p (imgs ++ more) = Some i.
Proof.
  unfold find_image. destruct (list_find _ imgs) as [[j x]|] eqn:E; [|done].
  intros [= <-]. by rewrite (list_find_app_l _ _ _ _ _ E).
Qed.

Lemma find_image_app_other p q c (imgs : list Image) :
  q <> p -> find_image p (imgs ++ [mkImage q c]) = find_image p imgs.
Proof.
  intros Hne. destruct (find_image p imgs) as [i|] eqn:E.
  - by apply find_image_app_l.
  - unfold find_image in *.
    destruct (list_find _ imgs) as [[]|] eqn:E'; [done|].
    rewrite list_find_app_r by done. cbn. by rewrite decide_False.
Qed.

Lemma load_texture_images name cs s r s' :
  load_texture name cs s = (Ok r, s') ->
  files s' = files s /\
  exists (f : Image -> Image) i,
    (forall im, filepath (f im) = filepath im) /\
    (images s' = alter f i (images s) \/
     exists c, images s' = alter f i (images s ++ [mkImage (texture_path name) c])).
Proof.
  unfold load_texture, texture_path.
  set (path := PyStr.path_join _ _).
  unfold bind at 1, os_path_exists.
  destruct (files s !! path) as [fl|] eqn:Hf; cbn [bool_decide].
  2:{ rewrite bool_decide_eq_false_2 by (by intros [? ?]).
      intros [= <- <-]. split; [done|]. exists id, 0. split; [done|]. left.
      symmetry. apply list_eq. intros j.
      destruct (decide (0 = j)) as [<-|?].
      - rewrite list_lookup_alter_eq. by destruct (images s !! 0).
      - by rewrite list_lookup_alter_ne. }
  rewrite bool_decide_eq_true_2 by eauto.
  unfold try_except, bind.
  destruct (find_image path (images s)) as [j|] eqn:Hj.
  - rewrite (images_load_existing _ _ _ Hj). cbn.
    intros [= <- <-]. split; [by destruct s|].
    eexists _, j. split; [|left; by destruct s]. done.
  - destruct fl as [| meshes mats | n |].
    1:{ rewrite (images_load_new path s true) by done. cbn.
        intros [= <- <-]. split; [by destruct s|].
        eexists _, _. split; [|right; eexists; by destruct s]. done. }
    all: erewrite (images_load_fails path s true) by (done || by rewrite Hf).
    all: cbn; intros [= <- <-]; split; [by destruct s|].
    all: exists id, 0; split; [done|]; left.
    all: destruct s as [fs ro off imgs ms objs act lts cams w cl out]; cbn.
    all: symmetry; apply list_eq; intros j;
      (destruct (decide (0 = j)) as [<-|?];
       [rewrite list_lookup_alter_eq; by destruct (imgs !! 0)
       |by rewrite list_lookup_alter_ne]).
Qed.

Lemma load_texture_stable name cs s r s' :
  load_texture name cs s = (Ok r, s') -> stable name r s'.
Proof.
  intros Hrun. destruct r as [i|]; cbn.
  - destruct (load_texture_Some _ _ _ _ _ Hrun) as (Hfiles & Hsome & Hfind & _).
    rewrite Hfiles. split; assumption.
  - destruct (load_texture_run name cs s) as (r & s0 & Hrun' & T & _ & _ & Hst).
    rewrite Hrun in Hrun'. injection Hrun' as <- <-.
    pose proof (touches_images_only_fields _ _ T) as (Hfiles & _).
    unfold channel_status in Hst. rewrite Hfiles.
    destruct (files s !! texture_path name) as [fl|]; [|by left].
    destruct (find_image (texture_path name) (images s)) as [j|] eqn:Hj;
      [discriminate Hst|].
    destruct fl; [discriminate Hst | ..]; destruct Hst as [_ ->]; right; done.
Qed.

Lemma load_texture_keeps_stable other cs s r' s' name r :
  texture_path other <> texture_path name ->
  load_texture other cs s = (Ok r', s') ->
  stable name r s -> stable name r s'.
Proof.
  intros Hne Hrun Hst.
  destruct (load_texture_images _ _ _ _ _ Hrun) as (Hfiles & f & i & Hf & Himgs).
  assert (find_image (texture_path name) (images s')
          = find_image (texture_path name) (images s)) as Hfind.
  { destruct Himgs as [->|[c ->]]; rewrite find_image_alter by done; [done|].
    by apply find_image_app_other. }
  unfold stable in *. rewrite Hfiles, Hfind. exact Hst.
Qed.

(** A channel that is stable and carries its tag loads again as before,
    and the call changes nothing but the output. *)
Lemma load_texture_again name cs r s :
  stable name r s ->
  tagged (images s) r (name, cs) ->
  exists s',
    load_texture name cs s = (Ok r, s') /\
    s' = with_stdout (stdout s') s.
Proof.
  intros Hst Ht. unfold load_texture. fold (texture_path name).
  unfold bind at 1, os_path_exists.
  destruct r as [i|]; cbn [stable] in Hst.
  - destruct Hst as [Hsome Hfind].
    rewrite bool_decide_eq_true_2 by done.
    unfold try_except, bind. rewrite (images_load_existing _ _ _ Hfind).
    eexists. split; [reflexivity|].
    destruct s as [fs ro off imgs ms objs act lts cams w cl out].
    cbn [images] in Ht. unfold set_colorspace, modify, ret.
    cbn [images with_images with_stdout files read_only offline materials objects
         active lights cameras world calls stdout].
    rewrite (list_alter_same _ imgs i _ (Ht i eq_refl)) by done. reflexivity.
  - destruct Hst as [Hnone|[Hnot Hfind]].
    + rewrite Hnone, bool_decide_eq_false_2 by (by intros [? ?]).
      exists s. split; [done|]. by destruct s.
    + destruct (files s !! texture_path name) as [fl|] eqn:Hf.
      * rewrite bool_decide_eq_true_2 by eauto.
        unfold try_except, bind.
        rewrite (images_load_fails (texture_path name) s true (Some fl) Hfind Hf Hnot).
        eexists. split; [reflexivity|]. by destruct s.
      * rewrite bool_decide_eq_false_2 by (by intros [? ?]).
        exists s. split; [done|]. by destruct s.
Qed.

Lemma stable_same name r s s' :
  files s' = files s -> images s' = images s -> stable name r s -> stable name r s'.
Proof. unfold stable. by intros -> ->. Qed.

Ltac paths_differ := let H := fresh in intros H; vm_compute in H; discriminate H.

Lemma load_all_stable s tx s1 :
  load_all s = (Ok tx, s1) ->
  stable "albedo" (base_color_map tx) s1 /\
  stable "normal" (normal_map tx) s1 /\
  stable "roughness" (roughness_map tx) s1 /\
  stable "metallic" (metallic_map tx) s1.
Proof.
  unfold load_all, bind.
  destruct (load_texture "albedo" "sRGB" s) as [[r1|?] sa] eqn:H1; [|done].
  destruct (load_texture "normal" "Non-Color" sa) as [[r2|?] sb] eqn:H2; [|done].
  destruct (load_texture "roughness" "Non-Color" sb) as [[r3|?] sc] eqn:H3; [|done].
  destruct (load_texture "metallic" "Non-Color" sc) as [[r4|?] sd] eqn:H4; [|done].
  intros [= <- <-]. cbn [base_color_map normal_map roughness_map metallic_map].
  pose proof (load_texture_stable _ _ _ _ _ H1) as S1.
  pose proof (load_texture_stable _ _ _ _ _ H2) as S2.
  pose proof (load_texture_stable _ _ _ _ _ H3) as S3.
  pose proof (load_texture_stable _ _ _ _ _ H4) as S4.
  split; [|split; [|split]].
  - eapply (load_texture_keeps_stable "metallic"); [paths_differ | exact H4 |].
    eapply (load_texture_keeps_stable "roughness"); [paths_differ | exact H3 |].
    eapply (load_texture_keeps_stable "normal"); [paths_differ | exact H2 |].
    exact S1.
  - eapply (load_texture_keeps_stable "metallic"); [paths_differ | exact H4 |].
    eapply (load_texture_keeps_stable "roughness"); [paths_differ | exact H3 |].
    exact S2.
  - eapply (load_texture_keeps_stable "metallic"); [paths_differ | exact H4 |].
    exact S3.
  - exact S4.
Qed.

Lemma load_all_again tx s :
  stable "albedo" (base_color_map tx) s ->
  stable "normal" (normal_map tx) s ->
  stable "roughness" (roughness_map tx) s ->
  stable "metallic" (metallic_map tx) s ->
  well_tagged (images s) tx ->
  exists s', load_all s = (Ok tx, s') /\ s' = with_stdout (stdout s') s.
Proof.
  intros S1 S2 S3 S4 (T1 & T2 & T3 & T4). unfold load_all, bind.
  destruct (load_texture_again "albedo" "sRGB" _ s S1 T1) as (sa & -> & Ea).
  assert (files sa = files s /\ images sa = images s) as [Fa Ia].
  { rewrite Ea. by destruct s. }
  destruct (load_texture_again "normal" "Non-Color" (normal_map tx) sa) as (sb & -> & Eb);
    [by eapply stable_same | by rewrite Ia |].
  assert (files sb = files s /\ images sb = images s) as [Fb Ib].
  { rewrite Eb. destruct sa. cbn in *. done. }
  destruct (load_texture_again "roughness" "Non-Color" (roughness_map tx) sb) as (sc & -> & Ec);
    [by eapply stable_same | by rewrite Ib |].
  assert (files sc = files s /\ images sc = images s) as [Fc Ic].
  { rewrite Ec. destruct sb. cbn in *. done. }
  destruct (load_texture_again "metallic" "Non-Color" (metallic_map tx) sc) as (sd & -> & Ed);
    [by eapply stable_same | by rewrite Ic |].
  exists sd. split; [by destruct tx|].
  rewrite Ed, Ec, Eb, Ea. by destruct s.
Qed.

(** X13.  The material pass is idempotent: when [process_materials] has
    returned for an object, a second call for the same object returns and
    changes nothing but the output: no image is loaded again, and every
    material keeps the tree it has. *)
Theorem process_materials_twice (obj : Object) (s s1 : Bpy) :
  slots_bound obj s ->
  process_materials obj s = (Ok tt, s1) ->
  exists s2,
    process_materials obj s1 = (Ok tt, s2) /\
    s2 = with_stdout (stdout s2) s1.
Proof.
  intros Hb Hrun.
  destruct (material_slots obj) as [|slot slots] eqn:Hs.
  { unfold process_materials in *. rewrite Hs in *.
    rewrite bool_decide_eq_true_2 in * by done.
    exists s1. split; [done|]. by destruct s1. }
  assert (material_slots obj <> []) as Hne by (by rewrite Hs).
  rewrite process_materials_as_load_all in Hrun by done.
  destruct (load_all_run s) as (tx & sl & Hload & T & Hw & _).
  rewrite Hload in Hrun.
  pose proof (touches_images_only_fields _ _ T) as (_ & Hmats & _).
  rewrite for_each_slots in Hrun; [|done|].
  2:{ intros mat Hin. rewrite Hmats. by apply Hb. }
  injection Hrun as Hs1.
  pose proof (rebuild_all_frame tx (material_slots obj) sl) as Hframe.
  rewrite Hs1 in Hframe.
  assert (files s1 = files sl /\ images s1 = images sl) as [Hf1 Hi1].
  { rewrite Hframe. by destruct sl. }
  destruct (load_all_stable _ _ _ Hload) as (S1 & S2 & S3 & S4).
  destruct (load_all_again tx s1) as (s1' & Hload' & E1');
    [by eapply stable_same | by eapply stable_same | by eapply stable_same
    | by eapply stable_same | by rewrite Hi1 |].
  assert (materials s1' = materials s1 /\ images s1' = images s1) as [Hm1' Hi1'].
  { rewrite E1'. by destruct s1. }
  assert (forall mat, materials s1 !! mat
            = if decide (Some mat ∈ material_slots obj)
              then Some (mkMaterial true (material_tree mat tx))
              else materials sl !! mat) as Hlook.
  { intros mat. rewrite <- Hs1. apply rebuild_all_lookup. }
  rewrite process_materials_as_load_all by done. rewrite Hload'.
  rewrite for_each_slots.
  2:{ by rewrite Hi1', Hi1. }
  2:{ intros mat Hin. rewrite Hm1', Hlook. rewrite decide_True by done. eauto. }
  eexists. split; [reflexivity|].
  rewrite (rebuild_all_frame tx (material_slots obj) s1').
  assert (materials (foldl (rebuild_slot tx) s1' (material_slots obj)) = materials s1)
    as ->.
  { apply map_eq. intros mat. rewrite rebuild_all_lookup, Hm1', Hlook.
    destruct (decide (Some mat ∈ material_slots obj)); reflexivity. }
  rewrite E1'. by destruct s1.
Qed.

Lemma process_materials_twice_witness :
  slots_bound ring textured_host /\
  exists s1 s2,
    process_materials ring textured_host = (Ok tt, s1) /\
    process_materials ring s1 = (Ok tt, s2) /\
    s2 = with_stdout (stdout s2) s1.
Proof.
  assert (slots_bound ring textured_host) as Hb.
  { apply slots_bound_ring. vm_compute. eauto. }
  split; [exact Hb|].
  destruct (process_materials_run ring textured_host Hb) as (tx & s1 & Hrun & _).
  destruct (process_materials_twice ring textured_host s1 Hb Hrun) as (s2 & H2).
  exists s1, s2. split; [exact Hrun|]. exact H2.
Defined.

Lemma for_each_null_slots tx slots s :
  Forall (fun slot => slot = None) slots ->
  for_each slots (process_slot tx) s = (Ok tt, s).
Proof.
  induction 1 as [|slot slots -> _ IH]; [done|].
  cbn [for_each process_slot]. unfold bind. by rewrite pass_run.
Qed.

(** X14.  The textures are loaded before the slots are looked at: for an
    object without a material slot [process_materials] returns at once and
    leaves the host as it is, while for an object whose slots are all empty
    it still runs the four loads, which may add images and print warnings,
    and changes no material. *)
Theorem empty_slots_still_load (obj : Object) (s : Bpy) :
  only_null_slots obj ->
  (material_slots obj = [] -> process_materials obj s = (Ok tt, s)) /\
  (material_slots obj <> [] ->
   exists tx s',
     load_all s = (Ok tx, s') /\
     process_materials obj s = (Ok tt, s') /\
     materials s' = materials s).
Proof.
  intros Hnull. split.
  - intros Hs. unfold process_materials. by rewrite Hs, bool_decide_eq_true_2.
  - intros Hne. destruct (load_all_run s) as (tx & s' & Hload & T & _).
    exists tx, s'. split; [exact Hload|].
    rewrite process_materials_as_load_all, Hload by done.
    split; [by apply for_each_null_slots|].
    by destruct (touches_images_only_fields _ _ T) as (_ & -> & _).
Qed.

Lemma empty_slots_still_load_witness :
  let hollow := mkObject "Hollow" (1, 1, 1)%Q (0, 0, 0)%Q (0, 0, 0)%Q false false 4
                         false false 0 false (0, 0, 0)%Q [None] in
  only_null_slots hollow /\
  (material_slots hollow = [] -> process_materials hollow textured_host
                                 = (Ok tt, textured_host)) /\
  (material_slots hollow <> [] ->
   exists tx s',
     load_all textured_host = (Ok tx, s') /\
     process_materials hollow textured_host = (Ok tt, s') /\
     materials s' = materials textured_host).
Proof.
  intros hollow.
  assert (only_null_slots hollow) as Hn by (by repeat constructor).
  split; [exact Hn|]. exact (empty_slots_still_load hollow textured_host Hn).
Defined.
